(** * Sequential Thinking MCP server: the thought ledger

    A shallow embedding of [processThought] and of the [sequentialthinking]
    tool of [src/mcp/linear-server.ts] (the second program of that file),
    with the properties of the ledger proved about it.  The module
    [Linear] further down embeds the requests of the first program.

    Modelling choices, all taken from the source:
    - a JS [number] that passed [z.number().int()] is an integer-valued
      double; [>] on such values is the order of [Z], so numbers are [Z];
    - [null] and [undefined] are [None];
    - [thoughtHistory] is an array used only through [push] and [length]:
      a [list], newest entry last;
    - [branches] is an ordinary object [{}] used as a map.  Its own
      properties are kept in creation order, reads go through
      [Object.prototype] when there is no own property, and [Object.keys]
      lists array-index keys first, in ascending numeric order, then the
      other keys in creation order;
    - an entry object is built by the tool handler for each call, written
      once in [processThought] before it is pushed, and never written
      again: the arrays hold immutable values. *)

From Stdlib Require Import ZArith NArith List String Ascii Bool Lia.
From Stdlib Require Import Permutation Sorted.
From Stdlib Require Import QArith DecimalString.
Import ListNotations.

Local Open Scope string_scope.
Local Open Scope list_scope.
Local Open Scope Z_scope.

(** ** Data model *)

Record ThoughtEntry : Type := mkThoughtEntry {
  thought : string;
  thoughtNumber : Z;
  totalThoughts : Z;
  isRevision : bool;
  revisesThought : option Z;
  branchFromThought : option Z;
  branchId : option string;
  needsMoreThoughts : bool
}.

(** The assignment [input.totalThoughts = v]. *)
Definition set_totalThoughts (input : ThoughtEntry) (v : Z) : ThoughtEntry :=
  {| thought := thought input;
     thoughtNumber := thoughtNumber input;
     totalThoughts := v;
     isRevision := isRevision input;
     revisesThought := revisesThought input;
     branchFromThought := branchFromThought input;
     branchId := branchId input;
     needsMoreThoughts := needsMoreThoughts input |}.

(** The object returned by [processThought]. *)
Module Summary.
Record t : Type := mk {
  thoughtNumber : Z;
  totalThoughts : Z;
  nextThoughtNeeded : bool;
  branches : list string;
  thoughtHistoryLength : Z
}.
End Summary.

(** ** The [branches] object *)

(** Own properties, oldest first.  Every own property of [branches] holds
    an array of entries. *)
Definition PropertyList : Type := list (string * list ThoughtEntry).

(** What a read [branches[k]] can yield. *)
Inductive Value : Type :=
| Undefined
| ArrayOf (items : list ThoughtEntry)
| Inherited (name : string).

(** The properties every ordinary object inherits from [Object.prototype]
    under Node: eleven functions and the [__proto__] accessor, whose getter
    yields [Object.prototype] itself. *)
Definition Object_prototype_keys : list string :=
  [ "constructor"; "__defineGetter__"; "__defineSetter__"; "hasOwnProperty";
    "__lookupGetter__"; "__lookupSetter__"; "isPrototypeOf";
    "propertyIsEnumerable"; "toString"; "valueOf"; "__proto__";
    "toLocaleString" ].

Definition inherited (k : string) : bool :=
  existsb (String.eqb k) Object_prototype_keys.

Fixpoint getOwnProperty (o : PropertyList) (k : string)
  : option (list ThoughtEntry) :=
  match o with
  | [] => None
  | (k', items) :: o' =>
      if String.eqb k k' then Some items else getOwnProperty o' k
  end.

(** [o[k]]: the own property, else the inherited one, else [undefined]. *)
Definition Get (o : PropertyList) (k : string) : Value :=
  match getOwnProperty o k with
  | Some items => ArrayOf items
  | None => if inherited k then Inherited k else Undefined
  end.

(** [ToBoolean]: arrays, functions and objects are truthy. *)
Definition truthy (v : Value) : bool :=
  match v with
  | Undefined => false
  | ArrayOf _ | Inherited _ => true
  end.

(** [ToBoolean] of [input.branchId]: [null] and the empty string are
    falsy. *)
Definition truthy_branchId (b : option string) : bool :=
  match b with
  | None => false
  | Some id => negb (String.eqb id "")
  end.

(** [o[k] = []] where [k] is neither own nor inherited: a new own data
    property, created last. *)
Definition defineProperty (o : PropertyList) (k : string) : PropertyList :=
  o ++ [(k, [])].

(** The effect on [o] of [push] on the array held by the own property [k]:
    the property keeps its place. *)
Fixpoint pushOwn (o : PropertyList) (k : string) (x : ThoughtEntry)
  : PropertyList :=
  match o with
  | [] => []
  | (k', items) :: o' =>
      if String.eqb k k' then (k', items ++ [x]) :: o'
      else (k', items) :: pushOwn o' k x
  end.

(** *** Array indices and [Object.keys] *)

Definition digit (c : ascii) : option N :=
  let n := N_of_ascii c in
  if ((48 <=? n) && (n <=? 57))%N then Some (n - 48)%N else None.

Fixpoint digits (s : string) (acc : N) : option N :=
  match s with
  | EmptyString => Some acc
  | String c r =>
      match digit c with
      | Some d => digits r (10 * acc + d)%N
      | None => None
      end
  end.

(** A property key is an array index when it is the canonical decimal
    numeral of an integer in [0, 2^32 - 2]: digits only, no leading zero
    except for ["0"] itself. *)
Definition array_index (s : string) : option N :=
  match s with
  | EmptyString => None
  | String "0" EmptyString => Some 0%N
  | String "0" _ => None
  | _ =>
      match digits s 0 with
      | Some n => if (n <? 2 ^ 32 - 1)%N then Some n else None
      | None => None
      end
  end.

Definition is_array_index (s : string) : bool :=
  match array_index s with Some _ => true | None => false end.

(** The index keys of a key list with their numeric values. *)
Fixpoint index_keys (ks : list string) : list (N * string) :=
  match ks with
  | [] => []
  | k :: ks' =>
      match array_index k with
      | Some n => (n, k) :: index_keys ks'
      | None => index_keys ks'
      end
  end.

Fixpoint insert_index (x : N * string) (l : list (N * string))
  : list (N * string) :=
  match l with
  | [] => [x]
  | y :: l' => if (fst x <=? fst y)%N then x :: l else y :: insert_index x l'
  end.

Fixpoint ascending (l : list (N * string)) : list (N * string) :=
  match l with
  | [] => []
  | x :: l' => insert_index x (ascending l')
  end.

(** [OrdinaryOwnPropertyKeys] on a key list in creation order. *)
Definition own_property_keys (ks : list string) : list string :=
  map snd (ascending (index_keys ks))
  ++ filter (fun k => negb (is_array_index k)) ks.

(** [Object.keys(o)]: every own property of [branches] is enumerable. *)
Definition Object_keys (o : PropertyList) : list string :=
  own_property_keys (map fst o).

(** ** The ledger *)

(** The two module-level constants of the program. *)
Record Ledger : Type := mkLedger {
  thoughtHistory : list ThoughtEntry;
  branches : PropertyList
}.

Definition empty_ledger : Ledger :=
  {| thoughtHistory := []; branches := [] |}.

(** How a call ends. *)
Inductive Completion (A : Type) : Type :=
| Return (a : A)
| Throw (message : string).
Arguments Return {A} a.
Arguments Throw {A} message.

(** The messages of the two [TypeError]s that the call of [push] can
    raise: on a value without that method, and on [undefined]. *)
Definition not_a_function : string :=
  "branches[input.branchId].push is not a function".

Definition push_of_undefined : string :=
  "Cannot read properties of undefined (reading 'push')".

(** The statement [input.totalThoughts = input.thoughtNumber] under its
    guard. *)
Definition adjust (input : ThoughtEntry) : ThoughtEntry :=
  if thoughtNumber input >? totalThoughts input
  then set_totalThoughts input (thoughtNumber input)
  else input.

(** The [if (input.branchId) { ... }] block, on the [branches] object:
    the object afterwards, and whether the block ran to its end or threw
    at the call of [push].  The arrays are shared by reference, so the
    push is an update of the own property in place. *)
Definition track_branch (input : ThoughtEntry) (o : PropertyList)
  : PropertyList * Completion unit :=
  match branchId input with
  | Some id =>
      if truthy_branchId (Some id) then
        let o1 := if negb (truthy (Get o id)) then defineProperty o id
                  else o in
        match Get o1 id with
        | ArrayOf _ => (pushOwn o1 id input, Return tt)
        | Inherited _ => (o1, Throw not_a_function)
        | Undefined => (o1, Throw push_of_undefined)
        end
      else (o, Return tt)
  | None => (o, Return tt)
  end.

Definition processThought (input0 : ThoughtEntry) (st : Ledger)
  : Ledger * Completion Summary.t :=
  let input := adjust input0 in
  let history := thoughtHistory st ++ [input] in
  let (o, c) := track_branch input (branches st) in
  let st' := {| thoughtHistory := history; branches := o |} in
  match c with
  | Return _ =>
      (st',
       Return {| Summary.thoughtNumber := thoughtNumber input;
                 Summary.totalThoughts := totalThoughts input;
                 Summary.nextThoughtNeeded := needsMoreThoughts input;
                 Summary.branches := Object_keys o;
                 Summary.thoughtHistoryLength :=
                   Z.of_nat (List.length history) |})
  | Throw m => (st', Throw m)
  end.

(** ** The [sequentialthinking] tool *)

(** Argument values as they arrive.  [NonIntegral] stands for every double
    that [Number.isInteger] rejects (fractions, [NaN], the infinities);
    [JObject] for arrays and objects. *)
Inductive JSNumber : Type :=
| Integral (z : Z)
| NonIntegral.

Inductive JSValue : Type :=
| JUndefined
| JNull
| JBoolean (b : bool)
| JNumber (n : JSNumber)
| JString (s : string)
| JObject.

(** The arguments of a call, a missing key being [JUndefined]. *)
Module Raw.
Record t : Type := mk {
  thought : JSValue;
  thoughtNumber : JSValue;
  totalThoughts : JSValue;
  nextThoughtNeeded : JSValue;
  isRevision : JSValue;
  revisesThought : JSValue;
  branchFromThought : JSValue;
  branchId : JSValue
}.
End Raw.

(** The arguments after the schema, as the handler destructures them. *)
Module Args.
Record t : Type := mk {
  thought : string;
  thoughtNumber : Z;
  totalThoughts : Z;
  nextThoughtNeeded : bool;
  isRevision : bool;
  revisesThought : option Z;
  branchFromThought : option Z;
  branchId : option string
}.
End Args.

(** Schema results: the parsed value, or the key that was refused. *)
Inductive Parsed (A : Type) : Type :=
| Valid (a : A)
| Invalid (key : string).
Arguments Valid {A} a.
Arguments Invalid {A} key.

Definition bind {A B : Type} (p : Parsed A) (f : A -> Parsed B) : Parsed B :=
  match p with
  | Valid a => f a
  | Invalid key => Invalid key
  end.

Notation "x <- p ;; q" := (bind p (fun x => q))
  (at level 61, p at next level, right associativity).

Definition at_key {A : Type} (key : string) (o : option A) : Parsed A :=
  match o with
  | Some a => Valid a
  | None => Invalid key
  end.

(** [z.string()]: any string, the empty one included. *)
Definition z_string (v : JSValue) : option string :=
  match v with
  | JString s => Some s
  | _ => None
  end.

(** [z.number().int().min(1)].  Every integer from 1 on passes here.
    Whether the library also refuses the integers above [2^53 - 1]
    depends on its version, which the source does not fix: the
    properties below take the acceptance of a call as a hypothesis or
    show it of small numbers. *)
Definition z_number_int_min1 (v : JSValue) : option Z :=
  match v with
  | JNumber (Integral z) => if 1 <=? z then Some z else None
  | _ => None
  end.

(** [z.boolean()]. *)
Definition z_boolean (v : JSValue) : option bool :=
  match v with
  | JBoolean b => Some b
  | _ => None
  end.

(** [.optional()]: [undefined] passes as it is. *)
Definition optional {A : Type} (p : JSValue -> option A) (v : JSValue)
  : option (option A) :=
  match v with
  | JUndefined => Some None
  | _ => option_map Some (p v)
  end.

(** [.optional().default(d)]. *)
Definition optional_default {A : Type} (p : JSValue -> option A) (d : A)
    (v : JSValue) : option A :=
  match v with
  | JUndefined => Some d
  | _ => p v
  end.

(** The input schema of the tool. *)
Definition schema (raw : Raw.t) : Parsed Args.t :=
  thought <- at_key "thought" (z_string (Raw.thought raw)) ;;
  thoughtNumber <-
    at_key "thoughtNumber" (z_number_int_min1 (Raw.thoughtNumber raw)) ;;
  totalThoughts <-
    at_key "totalThoughts" (z_number_int_min1 (Raw.totalThoughts raw)) ;;
  nextThoughtNeeded <-
    at_key "nextThoughtNeeded" (z_boolean (Raw.nextThoughtNeeded raw)) ;;
  isRevision <-
    at_key "isRevision"
      (optional_default z_boolean false (Raw.isRevision raw)) ;;
  revisesThought <-
    at_key "revisesThought"
      (optional z_number_int_min1 (Raw.revisesThought raw)) ;;
  branchFromThought <-
    at_key "branchFromThought"
      (optional z_number_int_min1 (Raw.branchFromThought raw)) ;;
  branchId <- at_key "branchId" (optional z_string (Raw.branchId raw)) ;;
  Valid {| Args.thought := thought;
           Args.thoughtNumber := thoughtNumber;
           Args.totalThoughts := totalThoughts;
           Args.nextThoughtNeeded := nextThoughtNeeded;
           Args.isRevision := isRevision;
           Args.revisesThought := revisesThought;
           Args.branchFromThought := branchFromThought;
           Args.branchId := branchId |}.

(** The [entry] literal of the handler. *)
Definition entry (a : Args.t) : ThoughtEntry :=
  {| thought := Args.thought a;
     thoughtNumber := Args.thoughtNumber a;
     totalThoughts := Args.totalThoughts a;
     isRevision := Args.isRevision a || false;
     revisesThought := Args.revisesThought a;
     branchFromThought := Args.branchFromThought a;
     branchId := Args.branchId a;
     needsMoreThoughts := Args.nextThoughtNeeded a |}.

(** What the caller gets: the result object (sent as its
    [JSON.stringify] text), the [isError] answer of the handler's [catch],
    or the refusal of the arguments by the schema. *)
Inductive Response : Type :=
| Content (result : Summary.t)
| IsError (text : string)
| ValidationError (key : string).

(** The [try]/[catch] body of the tool callback. *)
Definition handler (a : Args.t) (st : Ledger) : Ledger * Response :=
  let (st', c) := processThought (entry a) st in
  match c with
  | Return result => (st', Content result)
  | Throw message => (st', IsError ("Error: " ++ message)%string)
  end.

(** One call of the tool: the callback runs only on arguments the schema
    accepts. *)
Definition sequentialthinking (raw : Raw.t) (st : Ledger)
  : Ledger * Response :=
  match schema raw with
  | Valid a => handler a st
  | Invalid key => (st, ValidationError key)
  end.

(** A session: the calls in order, and the answers in the same order. *)
Fixpoint session (raws : list Raw.t) (st : Ledger)
  : Ledger * list Response :=
  match raws with
  | [] => (st, [])
  | raw :: raws' =>
      let (st1, r) := sequentialthinking raw st in
      let (st2, rs) := session raws' st1 in
      (st2, r :: rs)
  end.

(** The ledgers the program can be in. *)
Inductive reachable : Ledger -> Prop :=
| reachable_empty : reachable empty_ledger
| reachable_call (raw : Raw.t) (st : Ledger) :
    reachable st -> reachable (fst (sequentialthinking raw st)).

(** Arguments with the four required keys and, when given, a branch
    label. *)
Definition call (t : string) (n total : Z) (next : bool)
    (label : option string) : Raw.t :=
  {| Raw.thought := JString t;
     Raw.thoughtNumber := JNumber (Integral n);
     Raw.totalThoughts := JNumber (Integral total);
     Raw.nextThoughtNeeded := JBoolean next;
     Raw.isRevision := JUndefined;
     Raw.revisesThought := JUndefined;
     Raw.branchFromThought := JUndefined;
     Raw.branchId := match label with
                     | Some l => JString l
                     | None => JUndefined
                     end |}.

(** ** Vocabulary of the properties *)

(** The label under which an entry is filed: its [branchId] when that is
    truthy. *)
Definition label (e : ThoughtEntry) : option string :=
  match branchId e with
  | Some id => if String.eqb id "" then None else Some id
  | None => None
  end.

(** [e] carries the branch label [k]. *)
Definition labelled (k : string) (e : ThoughtEntry) : bool :=
  match branchId e with
  | Some id => String.eqb id k
  | None => false
  end.

(** The entry's [branchId] is not the name of a property that [branches]
    inherits. *)
Definition own_label (e : ThoughtEntry) : Prop :=
  forall id, branchId e = Some id -> inherited id = false.

(** The labels for which the entries of [h] made [processThought] create
    a sequence, one per entry, oldest first. *)
Fixpoint created (h : list ThoughtEntry) : list string :=
  match h with
  | [] => []
  | e :: h' =>
      match label e with
      | Some id => if inherited id then created h' else id :: created h'
      | None => created h'
      end
  end.

(** A list without its repetitions, each element at its first place. *)
Fixpoint first_appearance (l : list string) : list string :=
  match l with
  | [] => []
  | x :: l' =>
      x :: filter (fun y => negb (String.eqb y x)) (first_appearance l')
  end.

(** The sequence that the history assigns to the label [k]. *)
Definition branch_of_history (h : list ThoughtEntry) (k : string)
  : option (list ThoughtEntry) :=
  if String.eqb k "" || inherited k then None
  else match filter (labelled k) h with
       | [] => None
       | items => Some items
       end.

(** The order of array indices by numeric value. *)
Definition index_le (a b : N * string) : Prop := (fst a <= fst b)%N.

(** The same call with another value under the key [thought]. *)
Definition with_thought (raw : Raw.t) (v : JSValue) : Raw.t :=
  {| Raw.thought := v;
     Raw.thoughtNumber := Raw.thoughtNumber raw;
     Raw.totalThoughts := Raw.totalThoughts raw;
     Raw.nextThoughtNeeded := Raw.nextThoughtNeeded raw;
     Raw.isRevision := Raw.isRevision raw;
     Raw.revisesThought := Raw.revisesThought raw;
     Raw.branchFromThought := Raw.branchFromThought raw;
     Raw.branchId := Raw.branchId raw |}.

(** What holds of every ledger the program reaches. *)
Record ledger_invariant (st : Ledger) : Prop := {
  inv_branch : forall k,
    getOwnProperty (branches st) k = branch_of_history (thoughtHistory st) k;
  inv_keys :
    map fst (branches st) = first_appearance (created (thoughtHistory st));
  inv_total :
    Forall (fun e => thoughtNumber e <= totalThoughts e) (thoughtHistory st)
}.

(** * The Linear server

    The first program of the file.  Its tools build a GraphQL request
    from their arguments and hand it to [linearRequest].  Modelled here:
    the requests that the tools build, and what [linearRequest] makes of
    the answer of [fetch], which is an input of the model.  Strings are
    byte strings; a number that passed [z.number()] with a minimum and a
    maximum is a finite double, kept as the rational it is. *)

Module Linear.

(** The double quote of the template literals. *)
Definition quote : string := String "034"%char EmptyString.

(** The values that the tools send as GraphQL variables. *)
#[warnings="-register-all"]
Inductive Value : Type :=
| VString (s : string)
| VNumber (q : Q)
| VStrings (l : list string)
| VObject (fields : list (string * Value)).

(** An object literal and its later assignments: the properties in
    creation order. *)
Definition Fields : Type := list (string * Value).

Fixpoint get (o : Fields) (k : string) : option Value :=
  match o with
  | [] => None
  | (k', v) :: o' => if String.eqb k k' then Some v else get o' k
  end.

(** [o[k] = v]. *)
Fixpoint assign (o : Fields) (k : string) (v : Value) : Fields :=
  match o with
  | [] => [(k, v)]
  | (k', v') :: o' =>
      if String.eqb k k' then (k', v) :: o' else (k', v') :: assign o' k v
  end.

(** [ToBoolean] of an optional string argument. *)
Definition truthy_string (s : option string) : bool :=
  match s with
  | Some s => negb (String.eqb s "")
  | None => false
  end.

(** [if (s) o[k] = s]. *)
Definition assign_if_truthy (s : option string) (k : string) (o : Fields)
  : Fields :=
  match s with
  | Some s' => if truthy_string s then assign o k (VString s') else o
  | None => o
  end.

(** [if (n !== undefined) o[k] = n]. *)
Definition assign_if_defined (n : option Q) (k : string) (o : Fields)
  : Fields :=
  match n with
  | Some q => assign o k (VNumber q)
  | None => o
  end.

(** The body of the POST, before [JSON.stringify]: a missing [variables]
    is [None]. *)
Record Request : Type := mkRequest {
  query : string;
  variables : option Fields
}.

(** ** [linearRequest] *)

(** A parsed JSON text.  An object is held as its members, one per
    key. *)
#[warnings="-register-all"]
Inductive Json : Type :=
| JsonNull
| JsonBoolean (b : bool)
| JsonNumber (q : Q)
| JsonString (s : string)
| JsonArray (items : list Json)
| JsonObject (members : list (string * Json)).

(** [ToBoolean]: [null], [false], zero and the empty string are falsy,
    every array and every object is truthy. *)
Definition ToBoolean (v : Json) : bool :=
  match v with
  | JsonNull => false
  | JsonBoolean b => b
  | JsonNumber q => negb (Qeq_bool q 0)
  | JsonString s => negb (String.eqb s "")
  | JsonArray _ | JsonObject _ => true
  end.

Fixpoint member (members : list (string * Json)) (k : string)
  : option Json :=
  match members with
  | [] => None
  | (k', v) :: members' =>
      if String.eqb k k' then Some v else member members' k
  end.

(** The read [v.k] of a parsed JSON value, for a key that no prototype
    defines, as [errors] and [data] are: the member of an object,
    [undefined] (here [None]) on an object without it and on an array, a
    string, a number or a boolean, and a [TypeError] on [null]. *)
Definition property (v : Json) (k : string) : Completion (option Json) :=
  match v with
  | JsonNull =>
      Throw ("Cannot read properties of null (reading '" ++ k ++ "')")%string
  | JsonObject members => Return (member members k)
  | JsonBoolean _ | JsonNumber _ | JsonString _ | JsonArray _ => Return None
  end.

Section Transport.

(** [JSON.stringify] is left open. *)
Variable stringify : Json -> string.

(** What [linearRequest] reads of the response of [fetch]: [json] is the
    outcome of [response.json()], which rejects on a body that is not
    JSON.  The cast to [LinearResponse] checks nothing: the body is any
    JSON value. *)
Record HttpResponse : Type := mkHttpResponse {
  ok : bool;
  status : nat;
  statusText : string;
  json : Completion Json
}.

(** [fetch] rejects with an error or resolves with a response. *)
Inductive Fetched : Type :=
| Rejected (message : string)
| Resolved (response : HttpResponse).

Definition linearRequest (fetch : Request -> Fetched) (query : string)
    (variables : option Fields) : Completion (option Json) :=
  match fetch {| query := query; variables := variables |} with
  | Rejected message => Throw message
  | Resolved response =>
      if negb (ok response) then
        Throw ("Linear API error: "
               ++ NilZero.string_of_uint (Nat.to_uint (status response))
               ++ " " ++ statusText response)%string
      else
        match json response with
        | Throw message => Throw message
        | Return data =>
            match property data "errors" with
            | Throw message => Throw message
            | Return (Some errors) =>
                if ToBoolean errors
                then Throw ("Linear GraphQL error: "
                            ++ stringify errors)%string
                else property data "data"
            | Return None => property data "data"
            end
        end
  end.

End Transport.

(** ** [create_issue] *)

Module create_issue.

Record Args : Type := mk {
  title : string;
  description : option string;
  team_id : string;
  priority : option Q;
  label_ids : option (list string);
  assignee_id : option string;
  state_id : option string
}.

Definition query : string := "
        mutation CreateIssue($input: IssueCreateInput!) {
          issueCreate(input: $input) {
            success
            issue {
              id
              identifier
              title
              url
              state {
                name
              }
              priority
            }
          }
        }
      ".

(** The [input] object, statement by statement. *)
Definition input (a : Args) : Fields :=
  let input := [("title", VString (title a));
                ("teamId", VString (team_id a))] in
  let input := assign_if_truthy (description a) "description" input in
  let input := assign_if_defined (priority a) "priority" input in
  let input :=
    match label_ids a with
    | Some ids =>
        if (0 <? List.length ids)%nat then assign input "labelIds" (VStrings ids)
        else input
    | None => input
    end in
  let input := assign_if_truthy (assignee_id a) "assigneeId" input in
  let input := assign_if_truthy (state_id a) "stateId" input in
  input.

Definition request (a : Args) : Request :=
  {| Linear.query := query;
     variables := Some [("input", VObject (input a))] |}.

End create_issue.

(** ** [update_issue] *)

Module update_issue.

Record Args : Type := mk {
  issue_id : string;
  title : option string;
  description : option string;
  priority : option Q;
  state_id : option string;
  assignee_id : option string;
  label_ids : option (list string)
}.

Definition query : string := "
        mutation UpdateIssue($id: String!, $input: IssueUpdateInput!) {
          issueUpdate(id: $id, input: $input) {
            success
            issue {
              id
              identifier
              title
              url
              state {
                name
              }
              priority
            }
          }
        }
      ".

Definition input (a : Args) : Fields :=
  let input := [] in
  let input := assign_if_truthy (title a) "title" input in
  let input := assign_if_truthy (description a) "description" input in
  let input := assign_if_defined (priority a) "priority" input in
  let input := assign_if_truthy (state_id a) "stateId" input in
  let input := assign_if_truthy (assignee_id a) "assigneeId" input in
  let input :=
    match label_ids a with
    | Some ids => assign input "labelIds" (VStrings ids)
    | None => input
    end in
  input.

Definition request (a : Args) : Request :=
  {| Linear.query := query;
     variables := Some [("id", VString (issue_id a));
                        ("input", VObject (input a))] |}.

End update_issue.

(** ** [search_issues] *)

Module search_issues.

Record Args : Type := mk {
  query : option string;
  team_id : option string;
  state_name : option string;
  assignee_id : option string;
  limit : Q
}.

(** [if (s) filters.push(...)], the pushed text being [before], the
    argument between double quotes, and [" } }"]. *)
Definition push_if_truthy (s : option string) (before : string)
    (filters : list string) : list string :=
  match s with
  | Some s' =>
      if truthy_string s
      then filters ++ [(before ++ quote ++ s' ++ quote ++ " } }")%string]
      else filters
  | None => filters
  end.

Definition filters (a : Args) : list string :=
  let filters := [] in
  let filters := push_if_truthy (team_id a) "team: { id: { eq: " filters in
  let filters :=
    push_if_truthy (state_name a) "state: { name: { eq: " filters in
  let filters :=
    push_if_truthy (assignee_id a) "assignee: { id: { eq: " filters in
  filters.

Definition filterString (a : Args) : string :=
  if (0 <? List.length (filters a))%nat
  then ("filter: { " ++ String.concat ", " (filters a) ++ " }")%string
  else "".

(** The three fixed parts of the [gqlQuery] template. *)
Definition gqlQuery_head : string := "
        query($first: Int".

Definition gqlQuery_issues : string := ") {
          issues(first: $first".

Definition gqlQuery_nodes : string := ") {
            nodes {
              id
              identifier
              title
              url
              state {
                name
              }
              priority
              assignee {
                name
              }
              team {
                name
                key
              }
              createdAt
              updatedAt
            }
          }
        }
      ".

Definition gqlQuery (a : Args) : string :=
  (gqlQuery_head
   ++ (if truthy_string (query a) then ", $query: String" else "")
   ++ gqlQuery_issues
   ++ (if truthy_string (query a)
       then ", filter: { searchableContent: { contains: $query } }"
       else if negb (String.eqb (filterString a) "")
            then ", " ++ filterString a
            else "")
   ++ gqlQuery_nodes)%string.

(** [{ first: limit || 10 }], then [variables.query] when there is a
    query. *)
Definition variables (a : Args) : Fields :=
  let variables :=
    [("first", VNumber (if Qeq_bool (limit a) 0 then 10%Q else limit a))] in
  assign_if_truthy (query a) "query" variables.

Definition request (a : Args) : Request :=
  {| Linear.query := gqlQuery a; Linear.variables := Some (variables a) |}.

(** The schema of [limit],
    [z.number().min(1).max(50).optional().default(10)], on what is given
    under the key when that is a number or nothing: the limit handed to
    the handler, or a refusal. *)
Definition limit_schema (given : option Q) : option Q :=
  match given with
  | None => Some 10%Q
  | Some q => if Qle_bool 1 q && Qle_bool q 50 then Some q else None
  end.

End search_issues.

(** ** [get_issue] *)

Module get_issue.

(** [[A-Z]] under the flag [i], and [\d]. *)
Definition is_letter (c : ascii) : bool :=
  let n := N_of_ascii c in
  (((65 <=? n) && (n <=? 90)) || ((97 <=? n) && (n <=? 122)))%N.

Definition is_digit (c : ascii) : bool :=
  let n := N_of_ascii c in ((48 <=? n) && (n <=? 57))%N.

(** What is left after the longest run of letters. *)
Fixpoint after_letters (s : string) : string :=
  match s with
  | EmptyString => EmptyString
  | String c r => if is_letter c then after_letters r else s
  end.

Fixpoint all_digits (s : string) : bool :=
  match s with
  | EmptyString => true
  | String c r => is_digit c && all_digits r
  end.

Fixpoint all_letters (s : string) : bool :=
  match s with
  | EmptyString => true
  | String c r => is_letter c && all_letters r
  end.

(** The test of the regular expression [^[A-Z]+-\d+$] with the flag [i]:
    one letter at least, the letters that follow, a dash, and digits, one
    at least, up to the end. *)
Definition isIdentifier (issue_id : string) : bool :=
  match issue_id with
  | EmptyString => false
  | String c r =>
      is_letter c
      && match after_letters r with
         | String "-" d => negb (String.eqb d "") && all_digits d
         | _ => false
         end
  end.

Definition query_by_identifier : string := "
          query($identifier: String!) {
            issue(id: $identifier) {
              id
              identifier
              title
              description
              url
              state {
                id
                name
              }
              priority
              assignee {
                id
                name
              }
              team {
                id
                name
                key
              }
              labels {
                nodes {
                  id
                  name
                }
              }
              comments {
                nodes {
                  body
                  user {
                    name
                  }
                  createdAt
                }
              }
              createdAt
              updatedAt
            }
          }
        ".

Definition query_by_id : string := "
          query($id: String!) {
            issue(id: $id) {
              id
              identifier
              title
              description
              url
              state {
                id
                name
              }
              priority
              assignee {
                id
                name
              }
              team {
                id
                name
                key
              }
              labels {
                nodes {
                  id
                  name
                }
              }
              comments {
                nodes {
                  body
                  user {
                    name
                  }
                  createdAt
                }
              }
              createdAt
              updatedAt
            }
          }
        ".

Definition request (issue_id : string) : Request :=
  {| query := if isIdentifier issue_id then query_by_identifier
              else query_by_id;
     variables :=
       Some (if isIdentifier issue_id
             then [("identifier", VString issue_id)]
             else [("id", VString issue_id)]) |}.

(** The text of both queries, with the name of its variable left open. *)
Definition query_with (name : string) : string :=
  ("
          query($" ++ name ++ ": String!) {
            issue(id: $" ++ name ++ ") {
              id
              identifier
              title
              description
              url
              state {
                id
                name
              }
              priority
              assignee {
                id
                name
              }
              team {
                id
                name
                key
              }
              labels {
                nodes {
                  id
                  name
                }
              }
              comments {
                nodes {
                  body
                  user {
                    name
                  }
                  createdAt
                }
              }
              createdAt
              updatedAt
            }
          }
        ")%string.

End get_issue.

(** A key list is made of keys of another, in the same order. *)
Fixpoint subsequence (l m : list string) : bool :=
  match l, m with
  | [], _ => true
  | _ :: _, [] => false
  | x :: l', y :: m' =>
      if String.eqb x y then subsequence l' m' else subsequence l m'
  end.

End Linear.

(** ** Vocabulary of the further properties *)

(** The call passes the schema. *)
Definition accepted (raw : Raw.t) : bool :=
  match schema raw with
  | Valid _ => true
  | Invalid _ => false
  end.

(** The answer is a refusal of the arguments. *)
Definition is_refusal (r : Response) : bool :=
  match r with
  | ValidationError _ => true
  | Content _ | IsError _ => false
  end.

(** What a call adds to the history: the adjusted entry of an accepted
    call, nothing for a refused one. *)
Definition stored (raw : Raw.t) : list ThoughtEntry :=
  match schema raw with
  | Valid a => [adjust (entry a)]
  | Invalid _ => []
  end.

(** The shapes of argument values that the schema asks for. *)
Definition is_string (v : JSValue) : Prop := exists s, v = JString s.

Definition is_boolean (v : JSValue) : Prop := exists b, v = JBoolean b.

Definition is_count (v : JSValue) : Prop :=
  exists n, 1 <= n /\ v = JNumber (Integral n).

Definition absent_or (P : JSValue -> Prop) (v : JSValue) : Prop :=
  v = JUndefined \/ P v.

Definition well_typed (raw : Raw.t) : Prop :=
  is_string (Raw.thought raw)
  /\ is_count (Raw.thoughtNumber raw)
  /\ is_count (Raw.totalThoughts raw)
  /\ is_boolean (Raw.nextThoughtNeeded raw)
  /\ absent_or is_boolean (Raw.isRevision raw)
  /\ absent_or is_count (Raw.revisesThought raw)
  /\ absent_or is_count (Raw.branchFromThought raw)
  /\ absent_or is_string (Raw.branchId raw).

(** * Properties *)

(** ** Own properties *)

Lemma getOwnProperty_define (o : PropertyList) (k k' : string) :
  getOwnProperty (defineProperty o k) k' =
  match getOwnProperty o k' with
  | Some items => Some items
  | None => if String.eqb k' k then Some [] else None
  end.
Proof.
  unfold defineProperty.
  induction o as [|[k0 items0] o IH]; simpl.
  - reflexivity.
  - destruct (String.eqb k' k0); [reflexivity | exact IH].
Qed.

Lemma getOwnProperty_pushOwn (o : PropertyList) (k k' : string)
    (x : ThoughtEntry) :
  getOwnProperty (pushOwn o k x) k' =
  if String.eqb k' k
  then option_map (fun items => items ++ [x]) (getOwnProperty o k)
  else getOwnProperty o k'.
Proof.
  induction o as [|[k0 items0] o IH]; simpl.
  - destruct (String.eqb k' k); reflexivity.
  - destruct (String.eqb k k0) eqn:Ek; simpl.
    + apply String.eqb_eq in Ek. subst k0.
      destruct (String.eqb k' k); reflexivity.
    + destruct (String.eqb k' k0) eqn:Ek'.
      * apply String.eqb_eq in Ek'. subst k0.
        rewrite String.eqb_sym, Ek. reflexivity.
      * exact IH.
Qed.

Lemma pushOwn_keys (o : PropertyList) (k : string) (x : ThoughtEntry) :
  map fst (pushOwn o k x) = map fst o.
Proof.
  induction o as [|[k0 items0] o IH]; simpl.
  - reflexivity.
  - destruct (String.eqb k k0); simpl; [reflexivity | now rewrite IH].
Qed.

Lemma getOwnProperty_None (o : PropertyList) (k : string) :
  getOwnProperty o k = None <-> ~ In k (map fst o).
Proof.
  induction o as [|[k0 items0] o IH]; simpl.
  - tauto.
  - destruct (String.eqb k k0) eqn:Ek.
    + apply String.eqb_eq in Ek. subst k0.
      split; [discriminate | tauto].
    + apply String.eqb_neq in Ek. rewrite IH.
      split; [intros H [H1 | H1]; [congruence | tauto] | tauto].
Qed.

Lemma getOwnProperty_In (o : PropertyList) (k : string)
    (items : list ThoughtEntry) :
  NoDup (map fst o) -> In (k, items) o -> getOwnProperty o k = Some items.
Proof.
  induction o as [|[k0 items0] o IH]; simpl; intros Hnd Hin.
  - contradiction.
  - inversion Hnd as [|? ? Hk0 Hnd']; subst.
    destruct Hin as [Heq | Hin].
    + inversion Heq; subst. now rewrite String.eqb_refl.
    + destruct (String.eqb k k0) eqn:Ek.
      * apply String.eqb_eq in Ek. subst k0.
        exfalso. apply Hk0. apply (in_map fst) in Hin. exact Hin.
      * auto.
Qed.

(** ** The branch block, case by case *)

Lemma label_Some (e : ThoughtEntry) (id : string) :
  label e = Some id <-> branchId e = Some id /\ id <> "".
Proof.
  unfold label. destruct (branchId e) as [id'|].
  - destruct (String.eqb id' "") eqn:E.
    + apply String.eqb_eq in E. subst.
      split; [discriminate | intros [H1 H2]; congruence].
    + apply String.eqb_neq in E.
      split; [intros H; inversion H; subst; auto
             | intros [H1 H2]; congruence].
  - split; [discriminate | intros [H _]; discriminate].
Qed.

Lemma label_None (e : ThoughtEntry) :
  label e = None <-> branchId e = None \/ branchId e = Some "".
Proof.
  unfold label. destruct (branchId e) as [id'|].
  - destruct (String.eqb id' "") eqn:E.
    + apply String.eqb_eq in E. subst. tauto.
    + apply String.eqb_neq in E.
      split; [discriminate | intros [H | H]; congruence].
  - tauto.
Qed.

Lemma track_branch_unlabelled (e : ThoughtEntry) (o : PropertyList) :
  label e = None -> track_branch e o = (o, Return tt).
Proof.
  unfold label, track_branch, truthy_branchId.
  destruct (branchId e) as [id|]; [|reflexivity].
  destruct (String.eqb id ""); [reflexivity | discriminate].
Qed.

Lemma track_branch_existing (e : ThoughtEntry) (o : PropertyList)
    (id : string) (items : list ThoughtEntry) :
  label e = Some id -> getOwnProperty o id = Some items ->
  track_branch e o = (pushOwn o id e, Return tt).
Proof.
  intros Hl Hown. apply label_Some in Hl. destruct Hl as [Hb Hne].
  apply String.eqb_neq in Hne.
  unfold track_branch, truthy_branchId, Get. rewrite Hb, Hne. simpl.
  rewrite Hown. simpl. rewrite Hown. reflexivity.
Qed.

Lemma track_branch_first_use (e : ThoughtEntry) (o : PropertyList)
    (id : string) :
  label e = Some id -> getOwnProperty o id = None -> inherited id = false ->
  track_branch e o = (pushOwn (defineProperty o id) id e, Return tt).
Proof.
  intros Hl Hown Hinh. apply label_Some in Hl. destruct Hl as [Hb Hne].
  apply String.eqb_neq in Hne.
  unfold track_branch, truthy_branchId, Get. rewrite Hb, Hne. simpl.
  rewrite Hown, Hinh. simpl.
  rewrite getOwnProperty_define, Hown, String.eqb_refl. reflexivity.
Qed.

Lemma track_branch_inherited (e : ThoughtEntry) (o : PropertyList)
    (id : string) :
  label e = Some id -> getOwnProperty o id = None -> inherited id = true ->
  track_branch e o = (o, Throw not_a_function).
Proof.
  intros Hl Hown Hinh. apply label_Some in Hl. destruct Hl as [Hb Hne].
  apply String.eqb_neq in Hne.
  unfold track_branch, truthy_branchId, Get. rewrite Hb, Hne. simpl.
  rewrite Hown, Hinh. simpl. rewrite Hown. reflexivity.
Qed.

(** The block throws on inherited values only: after the guard the read
    is never [undefined]. *)
Lemma track_branch_throw (e : ThoughtEntry) (o : PropertyList) (m : string) :
  snd (track_branch e o) = Throw m -> m = not_a_function.
Proof.
  unfold track_branch.
  destruct (branchId e) as [id|]; [|discriminate].
  destruct (truthy_branchId (Some id)); [|discriminate].
  unfold Get.
  destruct (getOwnProperty o id) as [items|] eqn:Ho; simpl.
  - rewrite Ho. discriminate.
  - destruct (inherited id) eqn:Hinh; simpl.
    + rewrite Ho. simpl. intros H. now inversion H.
    + rewrite getOwnProperty_define, Ho, String.eqb_refl. discriminate.
Qed.

(** ** Array indices, on examples *)

Example array_index_zero : array_index "0" = Some 0%N.
Proof. reflexivity. Qed.

Example array_index_decimal : array_index "42" = Some 42%N.
Proof. reflexivity. Qed.

Example array_index_greatest :
  array_index "4294967294" = Some 4294967294%N
  /\ array_index "4294967295" = None.
Proof. split; reflexivity. Qed.

Example array_index_not_canonical :
  array_index "042" = None /\ array_index "-1" = None
  /\ array_index "1.5" = None /\ array_index "" = None
  /\ array_index "alt" = None.
Proof. repeat split. Qed.

Example Object_keys_order :
  own_property_keys ["b"; "10"; "a"; "9"; "09"] = ["9"; "10"; "b"; "a"; "09"].
Proof. reflexivity. Qed.

(** ** Lists of labels *)

Lemma first_appearance_In (l : list string) (x : string) :
  In x (first_appearance l) <-> In x l.
Proof.
  induction l as [|a l IH]; simpl.
  - tauto.
  - rewrite filter_In, IH, negb_true_iff, String.eqb_neq.
    destruct (string_dec a x) as [E | E]; [tauto |].
    split; [tauto | intros [H | H]; [tauto | right; split; congruence]].
Qed.

Lemma first_appearance_NoDup (l : list string) : NoDup (first_appearance l).
Proof.
  induction l as [|a l IH]; simpl; constructor.
  - rewrite filter_In, negb_true_iff, String.eqb_neq. tauto.
  - now apply NoDup_filter.
Qed.

Lemma existsb_eqb_In (x : string) (l : list string) :
  existsb (String.eqb x) l = true <-> In x l.
Proof.
  rewrite existsb_exists. split.
  - intros [y [Hy E]]. apply String.eqb_eq in E. now subst.
  - intros H. exists x. split; [exact H | apply String.eqb_refl].
Qed.

Lemma first_appearance_snoc (l : list string) (x : string) :
  first_appearance (l ++ [x]) =
  if existsb (String.eqb x) l then first_appearance l
  else first_appearance l ++ [x].
Proof.
  induction l as [|a l IH]; simpl.
  - reflexivity.
  - rewrite IH. destruct (String.eqb x a) eqn:Exa; simpl.
    + apply String.eqb_eq in Exa. subst a.
      destruct (existsb (String.eqb x) l); [reflexivity |].
      rewrite filter_app. simpl. rewrite String.eqb_refl. simpl.
      now rewrite app_nil_r.
    + destruct (existsb (String.eqb x) l); [reflexivity |].
      rewrite filter_app. simpl. rewrite Exa. reflexivity.
Qed.

Lemma created_app (h h' : list ThoughtEntry) :
  created (h ++ h') = created h ++ created h'.
Proof.
  induction h as [|e h IH]; simpl.
  - reflexivity.
  - destruct (label e) as [id|]; [|exact IH].
    destruct (inherited id); [exact IH | simpl; now rewrite IH].
Qed.

(** ** The adjusted entry *)

Lemma adjust_branchId (e : ThoughtEntry) : branchId (adjust e) = branchId e.
Proof. unfold adjust. now destruct (thoughtNumber e >? totalThoughts e). Qed.

Lemma adjust_label (e : ThoughtEntry) : label (adjust e) = label e.
Proof. unfold label. now rewrite adjust_branchId. Qed.

Lemma adjust_thoughtNumber (e : ThoughtEntry) :
  thoughtNumber (adjust e) = thoughtNumber e.
Proof. unfold adjust. now destruct (thoughtNumber e >? totalThoughts e). Qed.

Lemma adjust_totalThoughts (e : ThoughtEntry) :
  totalThoughts (adjust e) = Z.max (thoughtNumber e) (totalThoughts e).
Proof.
  unfold adjust.
  destruct (Z.gtb_spec (thoughtNumber e) (totalThoughts e)); simpl; lia.
Qed.

Lemma adjust_set (e : ThoughtEntry) :
  adjust e = set_totalThoughts e (totalThoughts (adjust e)).
Proof.
  unfold adjust.
  destruct (thoughtNumber e >? totalThoughts e); [reflexivity |].
  now destruct e.
Qed.

(** ** One call of [processThought] *)

Lemma processThought_history (e : ThoughtEntry) (st : Ledger) :
  thoughtHistory (fst (processThought e st)) = thoughtHistory st ++ [adjust e].
Proof.
  unfold processThought.
  destruct (track_branch (adjust e) (branches st)) as [o [[]|m]];
    reflexivity.
Qed.

Lemma processThought_branches (e : ThoughtEntry) (st : Ledger) :
  branches (fst (processThought e st)) =
  fst (track_branch (adjust e) (branches st)).
Proof.
  unfold processThought.
  destruct (track_branch (adjust e) (branches st)) as [o [[]|m]];
    reflexivity.
Qed.

Lemma processThought_result (e : ThoughtEntry) (st : Ledger) :
  snd (processThought e st) =
  match snd (track_branch (adjust e) (branches st)) with
  | Return _ =>
      Return {| Summary.thoughtNumber := thoughtNumber e;
                Summary.totalThoughts :=
                  Z.max (thoughtNumber e) (totalThoughts e);
                Summary.nextThoughtNeeded := needsMoreThoughts (adjust e);
                Summary.branches :=
                  Object_keys (branches (fst (processThought e st)));
                Summary.thoughtHistoryLength :=
                  Z.of_nat
                    (List.length (thoughtHistory (fst (processThought e st))))
             |}
  | Throw m => Throw m
  end.
Proof.
  rewrite <- adjust_totalThoughts, <- (adjust_thoughtNumber e).
  unfold processThought.
  destruct (track_branch (adjust e) (branches st)) as [o [[]|m]];
    reflexivity.
Qed.

(** The call returns unless the label names an inherited property. *)
Lemma track_branch_returns (e : ThoughtEntry) (o : PropertyList) :
  own_label e -> snd (track_branch e o) = Return tt.
Proof.
  intros Hown. destruct (label e) as [id|] eqn:Hl.
  - pose proof Hl as Hl'. apply label_Some in Hl'. destruct Hl' as [Hb _].
    destruct (getOwnProperty o id) as [items|] eqn:Ho.
    + now rewrite (track_branch_existing e o id items).
    + rewrite (track_branch_first_use e o id); auto.
  - now rewrite track_branch_unlabelled.
Qed.

Lemma own_label_adjust (e : ThoughtEntry) : own_label e -> own_label (adjust e).
Proof. unfold own_label. now rewrite adjust_branchId. Qed.

Lemma processThought_returns (e : ThoughtEntry) (st : Ledger) :
  own_label e -> exists s, snd (processThought e st) = Return s.
Proof.
  intros Hown. rewrite processThought_result.
  rewrite track_branch_returns by now apply own_label_adjust.
  eexists. reflexivity.
Qed.

(** ** The invariant *)

Lemma labelled_true (k : string) (e : ThoughtEntry) :
  labelled k e = true <-> branchId e = Some k.
Proof.
  unfold labelled. destruct (branchId e) as [id|].
  - rewrite String.eqb_eq. split; congruence.
  - split; discriminate.
Qed.

Lemma branch_of_history_snoc (h : list ThoughtEntry) (e : ThoughtEntry)
    (k : string) :
  branch_of_history (h ++ [e]) k =
  if String.eqb k "" || inherited k then None
  else if labelled k e then Some (filter (labelled k) h ++ [e])
  else branch_of_history h k.
Proof.
  unfold branch_of_history.
  destruct (String.eqb k "" || inherited k); [reflexivity |].
  rewrite filter_app. simpl. destruct (labelled k e).
  - now destruct (filter (labelled k) h).
  - now rewrite app_nil_r.
Qed.

Lemma branch_of_history_Some (h : list ThoughtEntry) (k : string)
    (items : list ThoughtEntry) :
  branch_of_history h k = Some items ->
  items = filter (labelled k) h /\ k <> "" /\ inherited k = false.
Proof.
  unfold branch_of_history.
  destruct (String.eqb k "") eqn:Ek; simpl; [discriminate |].
  destruct (inherited k); [discriminate |].
  apply String.eqb_neq in Ek.
  destruct (filter (labelled k) h); [discriminate |].
  intros H. inversion H. auto.
Qed.

Lemma branch_of_history_None (h : list ThoughtEntry) (k : string) :
  k <> "" -> inherited k = false -> branch_of_history h k = None ->
  filter (labelled k) h = [].
Proof.
  unfold branch_of_history. intros Hk Hi.
  apply String.eqb_neq in Hk. rewrite Hk, Hi. simpl.
  now destruct (filter (labelled k) h).
Qed.

Lemma branch_of_history_excluded (h : list ThoughtEntry) (k : string) :
  String.eqb k "" || inherited k = true -> branch_of_history h k = None.
Proof. unfold branch_of_history. now intros ->. Qed.

Section Tracking.

Variables (e : ThoughtEntry) (h : list ThoughtEntry) (o : PropertyList).
Hypothesis Hbranch : forall k, getOwnProperty o k = branch_of_history h k.
Hypothesis Hkeys : map fst o = first_appearance (created h).

Lemma own_iff_created (id : string) :
  getOwnProperty o id = None <-> existsb (String.eqb id) (created h) = false.
Proof.
  rewrite getOwnProperty_None, Hkeys, first_appearance_In,
    <- existsb_eqb_In.
  destruct (existsb (String.eqb id) (created h)); split; congruence.
Qed.

Lemma track_branch_branch (k : string) :
  getOwnProperty (fst (track_branch e o)) k =
  branch_of_history (h ++ [e]) k.
Proof.
  rewrite branch_of_history_snoc.
  destruct (label e) as [id|] eqn:Hl.
  - destruct (proj1 (label_Some e id) Hl) as [Hb Hne].
    assert (Hlab : labelled k e = String.eqb k id).
    { unfold labelled. rewrite Hb. apply String.eqb_sym. }
    rewrite Hlab.
    destruct (getOwnProperty o id) as [items|] eqn:Ho.
    + rewrite (track_branch_existing e o id items Hl Ho). simpl.
      rewrite getOwnProperty_pushOwn, Ho. simpl.
      rewrite Hbranch in Ho.
      destruct (branch_of_history_Some _ _ _ Ho) as [Hitems [_ Hinh]].
      destruct (String.eqb_spec k id) as [-> | Hk].
      * apply String.eqb_neq in Hne. rewrite Hne, Hinh. simpl.
        now rewrite Hitems.
      * rewrite Hbranch.
        destruct (String.eqb k "" || inherited k) eqn:Ex;
          [now apply branch_of_history_excluded | reflexivity].
    + pose proof Ho as Ho'. rewrite Hbranch in Ho'.
      destruct (inherited id) eqn:Hinh.
      * rewrite (track_branch_inherited e o id Hl Ho Hinh). simpl.
        rewrite Hbranch.
        destruct (String.eqb k "" || inherited k) eqn:Ex;
          [now apply branch_of_history_excluded |].
        destruct (String.eqb_spec k id) as [-> | Hk]; [|reflexivity].
        rewrite Hinh, orb_true_r in Ex. discriminate.
      * rewrite (track_branch_first_use e o id Hl Ho Hinh). simpl.
        rewrite getOwnProperty_pushOwn, !getOwnProperty_define, Ho.
        rewrite String.eqb_refl. simpl.
        destruct (String.eqb_spec k id) as [-> | Hk].
        -- apply String.eqb_neq in Hne. rewrite Hne, Hinh. simpl.
           apply String.eqb_neq in Hne.
           now rewrite (branch_of_history_None h id Hne Hinh Ho').
        -- rewrite Hbranch.
           destruct (String.eqb k "" || inherited k) eqn:Ex;
             [rewrite branch_of_history_excluded by exact Ex |];
             now destruct (branch_of_history h k).
  - rewrite (track_branch_unlabelled e o Hl). simpl. rewrite Hbranch.
    destruct (String.eqb k "" || inherited k) eqn:Ex;
      [now apply branch_of_history_excluded |].
    destruct (labelled k e) eqn:Hlab; [|reflexivity].
    apply labelled_true in Hlab. apply label_None in Hl.
    destruct Hl as [Hl | Hl]; rewrite Hl in Hlab; [discriminate |].
    inversion Hlab; subst k. discriminate.
Qed.

Lemma track_branch_keys :
  map fst (fst (track_branch e o)) =
  first_appearance (created (h ++ [e])).
Proof.
  rewrite created_app. simpl.
  destruct (label e) as [id|] eqn:Hl.
  - destruct (getOwnProperty o id) as [items|] eqn:Ho.
    + rewrite (track_branch_existing e o id items Hl Ho). simpl.
      rewrite pushOwn_keys.
      assert (Hin : existsb (String.eqb id) (created h) = true).
      { destruct (existsb (String.eqb id) (created h)) eqn:Ex;
          [reflexivity |].
        apply own_iff_created in Ex. congruence. }
      rewrite Hbranch in Ho.
      destruct (branch_of_history_Some _ _ _ Ho) as [_ [_ Hinh]].
      rewrite Hinh, first_appearance_snoc, Hin. exact Hkeys.
    + destruct (inherited id) eqn:Hinh.
      * rewrite (track_branch_inherited e o id Hl Ho Hinh). simpl.
        now rewrite app_nil_r.
      * rewrite (track_branch_first_use e o id Hl Ho Hinh). simpl.
        rewrite pushOwn_keys. unfold defineProperty.
        rewrite map_app. simpl.
        apply own_iff_created in Ho.
        now rewrite first_appearance_snoc, Ho, Hkeys.
  - rewrite (track_branch_unlabelled e o Hl). simpl.
    now rewrite app_nil_r.
Qed.

End Tracking.

Lemma invariant_empty : ledger_invariant empty_ledger.
Proof.
  split; simpl; [|reflexivity | constructor].
  intros k. unfold branch_of_history. simpl.
  now destruct (String.eqb k "" || inherited k).
Qed.

Lemma invariant_processThought (e : ThoughtEntry) (st : Ledger) :
  ledger_invariant st -> ledger_invariant (fst (processThought e st)).
Proof.
  intros [Hb Hk Ht]. split.
  - intros k. rewrite processThought_branches, processThought_history.
    now apply track_branch_branch.
  - rewrite processThought_branches, processThought_history.
    now apply track_branch_keys.
  - rewrite processThought_history. apply Forall_app. split; [exact Ht |].
    constructor; [|constructor].
    rewrite adjust_thoughtNumber, adjust_totalThoughts. lia.
Qed.

(** ** The tool and its sessions *)

Lemma sequentialthinking_valid (raw : Raw.t) (a : Args.t) (st : Ledger) :
  schema raw = Valid a ->
  fst (sequentialthinking raw st) = fst (processThought (entry a) st)
  /\ snd (sequentialthinking raw st) =
     match snd (processThought (entry a) st) with
     | Return result => Content result
     | Throw message => IsError ("Error: " ++ message)%string
     end.
Proof.
  intros Hs. unfold sequentialthinking, handler. rewrite Hs.
  destruct (processThought (entry a) st) as [st' [s|m]]; auto.
Qed.

Lemma sequentialthinking_invalid (raw : Raw.t) (key : string) (st : Ledger) :
  schema raw = Invalid key ->
  sequentialthinking raw st = (st, ValidationError key).
Proof. intros Hs. unfold sequentialthinking. now rewrite Hs. Qed.

Lemma invariant_sequentialthinking (raw : Raw.t) (st : Ledger) :
  ledger_invariant st -> ledger_invariant (fst (sequentialthinking raw st)).
Proof.
  intros Hinv. destruct (schema raw) as [a|key] eqn:Hs.
  - destruct (sequentialthinking_valid raw a st Hs) as [-> _].
    now apply invariant_processThought.
  - now rewrite (sequentialthinking_invalid raw key st Hs).
Qed.

Lemma reachable_invariant (st : Ledger) : reachable st -> ledger_invariant st.
Proof.
  induction 1 as [|raw st _ IH].
  - exact invariant_empty.
  - now apply invariant_sequentialthinking.
Qed.

(** ** [Object.keys] *)

Lemma insert_index_perm (x : N * string) (l : list (N * string)) :
  Permutation (insert_index x l) (x :: l).
Proof.
  induction l as [|y l IH]; simpl.
  - apply Permutation_refl.
  - destruct (fst x <=? fst y)%N.
    + apply Permutation_refl.
    + eapply perm_trans; [apply perm_skip, IH | apply perm_swap].
Qed.

Lemma ascending_perm (l : list (N * string)) : Permutation (ascending l) l.
Proof.
  induction l as [|x l IH]; simpl.
  - constructor.
  - eapply perm_trans; [apply insert_index_perm | now apply perm_skip].
Qed.

Lemma insert_index_sorted (x : N * string) (l : list (N * string)) :
  StronglySorted index_le l -> StronglySorted index_le (insert_index x l).
Proof.
  induction 1 as [|y l Hs IH Hy]; simpl.
  - repeat constructor.
  - destruct (N.leb_spec (fst x) (fst y)) as [Hle | Hlt].
    + constructor; [now constructor |].
      constructor; [exact Hle |].
      eapply Forall_impl; [|exact Hy].
      intros z Hz. unfold index_le in *. lia.
    + constructor; [exact IH |].
      eapply Permutation_Forall;
        [apply Permutation_sym, insert_index_perm |].
      constructor; [unfold index_le; lia | exact Hy].
Qed.

Lemma ascending_sorted (l : list (N * string)) :
  StronglySorted index_le (ascending l).
Proof.
  induction l as [|x l IH]; simpl.
  - constructor.
  - now apply insert_index_sorted.
Qed.

Lemma index_keys_labels (ks : list string) :
  map snd (index_keys ks) = filter is_array_index ks.
Proof.
  unfold is_array_index.
  induction ks as [|k ks IH]; simpl.
  - reflexivity.
  - destruct (array_index k); simpl; now rewrite IH.
Qed.

Lemma filter_split_perm (f : string -> bool) (l : list string) :
  Permutation (filter f l ++ filter (fun k => negb (f k)) l) l.
Proof.
  induction l as [|k l IH]; simpl.
  - constructor.
  - destruct (f k); simpl.
    + now apply perm_skip.
    + apply Permutation_sym, Permutation_cons_app, Permutation_sym, IH.
Qed.

Lemma own_property_keys_perm (ks : list string) :
  Permutation (own_property_keys ks) ks.
Proof.
  unfold own_property_keys.
  eapply perm_trans; [|apply (filter_split_perm is_array_index)].
  apply Permutation_app_tail.
  rewrite <- index_keys_labels.
  apply Permutation_map, ascending_perm.
Qed.

Lemma own_property_keys_named (ks : list string) :
  forallb (fun k => negb (is_array_index k)) ks = true ->
  own_property_keys ks = ks.
Proof.
  unfold own_property_keys. intros H.
  assert (Hidx : index_keys ks = []).
  { induction ks as [|k ks IH]; simpl in *; [reflexivity |].
    apply andb_true_iff in H. destruct H as [Hk Hks].
    unfold is_array_index in Hk.
    destruct (array_index k); [discriminate | auto]. }
  rewrite Hidx. simpl.
  rewrite forallb_forall in H.
  induction ks as [|k ks IH]; simpl; [reflexivity |].
  rewrite (H k) by now left. f_equal. apply IH.
  - intros x Hx. apply H. now right.
  - simpl in Hidx. destruct (array_index k); [discriminate | exact Hidx].
Qed.

(** The listing of three calls labelled ["a"], ["b"] and not at all. *)
Lemma listing_a_b_none (e1 e2 e3 : ThoughtEntry) :
  branchId e1 = Some "a" -> branchId e2 = Some "b" -> branchId e3 = None ->
  exists s,
    snd (processThought e3
           (fst (processThought e2 (fst (processThought e1 empty_ledger)))))
    = Return s
    /\ Summary.branches s = ["a"; "b"].
Proof.
  intros H1 H2 H3.
  assert (B1 : branches (fst (processThought e1 empty_ledger))
               = [("a", [adjust e1])]).
  { rewrite processThought_branches. unfold track_branch.
    rewrite adjust_branchId, H1. reflexivity. }
  assert (B2 : branches
                 (fst (processThought e2 (fst (processThought e1 empty_ledger))))
               = [("a", [adjust e1]); ("b", [adjust e2])]).
  { rewrite processThought_branches, B1. unfold track_branch.
    rewrite adjust_branchId, H2. reflexivity. }
  rewrite processThought_result, (processThought_branches e3), B2.
  unfold track_branch. rewrite adjust_branchId, H3. simpl.
  eexists. split; reflexivity.
Qed.

(** ** What the schema lets through *)

Lemma schema_thought_refused (raw : Raw.t) :
  (forall s, Raw.thought raw <> JString s) -> schema raw = Invalid "thought".
Proof.
  intros H. unfold schema.
  destruct (Raw.thought raw) eqn:E; try reflexivity.
  now destruct (H s).
Qed.

Lemma schema_any_thought (raw : Raw.t) (a : Args.t) (t : string) :
  schema raw = Valid a ->
  schema (with_thought raw (JString t)) =
  Valid {| Args.thought := t;
           Args.thoughtNumber := Args.thoughtNumber a;
           Args.totalThoughts := Args.totalThoughts a;
           Args.nextThoughtNeeded := Args.nextThoughtNeeded a;
           Args.isRevision := Args.isRevision a;
           Args.revisesThought := Args.revisesThought a;
           Args.branchFromThought := Args.branchFromThought a;
           Args.branchId := Args.branchId a |}.
Proof.
  unfold schema, with_thought. simpl.
  destruct (z_string (Raw.thought raw)); simpl; [|discriminate].
  destruct (z_number_int_min1 (Raw.thoughtNumber raw)); simpl;
    [|discriminate].
  destruct (z_number_int_min1 (Raw.totalThoughts raw)); simpl;
    [|discriminate].
  destruct (z_boolean (Raw.nextThoughtNeeded raw)); simpl; [|discriminate].
  destruct (optional_default z_boolean false (Raw.isRevision raw)); simpl;
    [|discriminate].
  destruct (optional z_number_int_min1 (Raw.revisesThought raw)); simpl;
    [|discriminate].
  destruct (optional z_number_int_min1 (Raw.branchFromThought raw)); simpl;
    [|discriminate].
  destruct (optional z_string (Raw.branchId raw)); simpl; [|discriminate].
  intros H. inversion H. reflexivity.
Qed.

Lemma schema_numbers (raw : Raw.t) (a : Args.t) :
  schema raw = Valid a ->
  Raw.thoughtNumber raw = JNumber (Integral (Args.thoughtNumber a))
  /\ Raw.totalThoughts raw = JNumber (Integral (Args.totalThoughts a))
  /\ 1 <= Args.thoughtNumber a /\ 1 <= Args.totalThoughts a.
Proof.
  unfold schema.
  destruct (z_string (Raw.thought raw)); simpl; [|discriminate].
  destruct (Raw.thoughtNumber raw) as [| | |[n|]| |]; simpl;
    try discriminate.
  destruct (Z.leb_spec 1 n) as [Hn | Hn]; simpl; [|discriminate].
  destruct (Raw.totalThoughts raw) as [| | |[m|]| |]; simpl;
    try discriminate.
  destruct (Z.leb_spec 1 m) as [Hm | Hm]; simpl; [|discriminate].
  destruct (z_boolean (Raw.nextThoughtNeeded raw)); simpl; [|discriminate].
  destruct (optional_default z_boolean false (Raw.isRevision raw)); simpl;
    [|discriminate].
  destruct (optional z_number_int_min1 (Raw.revisesThought raw)); simpl;
    [|discriminate].
  destruct (optional z_number_int_min1 (Raw.branchFromThought raw)); simpl;
    [|discriminate].
  destruct (optional z_string (Raw.branchId raw)); simpl; [|discriminate].
  intros H. inversion H. simpl. auto.
Qed.

(** ** Sessions *)

Lemma sequentialthinking_length (raw : Raw.t) (a : Args.t) (st : Ledger) :
  schema raw = Valid a ->
  List.length (thoughtHistory (fst (sequentialthinking raw st)))
  = S (List.length (thoughtHistory st))
  /\ forall s, snd (sequentialthinking raw st) = Content s ->
       Summary.thoughtHistoryLength s
       = Z.of_nat (List.length (thoughtHistory (fst (sequentialthinking raw st)))).
Proof.
  intros Hs. destruct (sequentialthinking_valid raw a st Hs) as [-> ->].
  rewrite processThought_history, length_app. simpl. split; [lia |].
  intros s. rewrite processThought_result.
  destruct (snd (track_branch (adjust (entry a)) (branches st)));
    [|discriminate].
  intros H. inversion H. simpl.
  now rewrite processThought_history, length_app.
Qed.

Lemma session_cons (raw : Raw.t) (raws : list Raw.t) (st : Ledger) :
  session (raw :: raws) st =
  (fst (session raws (fst (sequentialthinking raw st))),
   snd (sequentialthinking raw st)
   :: snd (session raws (fst (sequentialthinking raw st)))).
Proof.
  simpl. destruct (sequentialthinking raw st) as [st1 r]. simpl.
  now destruct (session raws st1).
Qed.

Lemma session_reachable (raws : list Raw.t) (st : Ledger) :
  reachable st -> reachable (fst (session raws st)).
Proof.
  revert st. induction raws as [|raw raws IH]; intros st Hst.
  - exact Hst.
  - rewrite session_cons. simpl. apply IH. now constructor.
Qed.

Lemma session_counts (raws : list Raw.t) (st : Ledger) :
  Forall (fun raw => exists a, schema raw = Valid a) raws ->
  List.length (thoughtHistory (fst (session raws st)))
  = (List.length (thoughtHistory st) + List.length raws)%nat
  /\ (forall n s, nth_error (snd (session raws st)) n = Some (Content s) ->
        Summary.thoughtHistoryLength s
        = Z.of_nat (List.length (thoughtHistory st) + S n))
  /\ (forall n raw a, nth_error raws n = Some raw -> schema raw = Valid a ->
        own_label (entry a) ->
        exists s, nth_error (snd (session raws st)) n = Some (Content s)).
Proof.
  intros Hv. revert st.
  induction Hv as [|raw raws [a Ha] Hv IH]; intros st.
  - simpl. split; [lia |]. split.
    + intros [|n] s; discriminate.
    + intros [|n] raw a; discriminate.
  - rewrite session_cons. simpl fst. simpl snd.
    destruct (IH (fst (sequentialthinking raw st))) as [IH1 [IH2 IH3]].
    destruct (sequentialthinking_length raw a st Ha) as [L1 L2].
    split; [simpl; lia |]. split.
    + intros [|n] s; simpl; intros H.
      * inversion H as [H']. rewrite (L2 s H'), L1. f_equal. lia.
      * rewrite (IH2 n s H), L1. f_equal. lia.
    + intros [|n] raw' a'; simpl; intros H Hs Hown.
      * inversion H; subst raw'.
        destruct (sequentialthinking_valid raw a' st Hs) as [_ ->].
        destruct (processThought_returns (entry a') st Hown) as [s ->].
        now exists s.
      * exact (IH3 n raw' a' H Hs Hown).
Qed.

(** * The claims *)

(** The adjustment, where the call returns.  Every accepted submission is
    adjusted before it is stored.  Here
    [a] is the input as the schema hands it to the handler, with the
    numbers of [raw].  The entry appended to [thoughtHistory] is the input with only
    [totalThoughts] possibly rewritten: it holds [thoughtNumber] when that
    exceeds the declared total and the declared total otherwise.  A
    returned summary carries the stored [totalThoughts] and the input
    [thoughtNumber]; and a summary is returned whenever the branch label
    is not the name of a property inherited by [branches]. *)
Theorem submit_normalizes (raw : Raw.t) (a : Args.t) (st : Ledger) :
  schema raw = Valid a ->
  Raw.thoughtNumber raw = JNumber (Integral (Args.thoughtNumber a))
  /\ Raw.totalThoughts raw = JNumber (Integral (Args.totalThoughts a))
  /\ exists stored : ThoughtEntry,
       thoughtHistory (fst (sequentialthinking raw st))
       = thoughtHistory st ++ [stored]
       /\ stored = set_totalThoughts (entry a) (totalThoughts stored)
       /\ (Args.thoughtNumber a > Args.totalThoughts a ->
           totalThoughts stored = Args.thoughtNumber a)
       /\ (Args.thoughtNumber a <= Args.totalThoughts a ->
           totalThoughts stored = Args.totalThoughts a)
       /\ (forall s, snd (sequentialthinking raw st) = Content s ->
           Summary.totalThoughts s = totalThoughts stored
           /\ Summary.thoughtNumber s = Args.thoughtNumber a)
       /\ (own_label (entry a) ->
           exists s, snd (sequentialthinking raw st) = Content s).
Proof.
  intros Hs.
  destruct (schema_numbers raw a Hs) as [Hn [Ht _]].
  destruct (sequentialthinking_valid raw a st Hs) as [Hst Hr].
  split; [exact Hn |]. split; [exact Ht |].
  exists (adjust (entry a)). rewrite Hst, Hr.
  split; [apply processThought_history |].
  split; [apply adjust_set |].
  rewrite adjust_totalThoughts. simpl.
  split; [lia |]. split; [lia |]. split.
  - intros s. rewrite processThought_result.
    destruct (snd (track_branch (adjust (entry a)) (branches st)));
      [|discriminate].
    intros H. inversion H. simpl. auto.
  - intros Hown.
    destruct (processThought_returns (entry a) st Hown) as [s ->].
    now exists s.
Qed.

Lemma submit_normalizes_witness :
  schema (call "estimate exceeded" 5 3 true None)
  = Valid {| Args.thought := "estimate exceeded";
             Args.thoughtNumber := 5;
             Args.totalThoughts := 3;
             Args.nextThoughtNeeded := true;
             Args.isRevision := false;
             Args.revisesThought := None;
             Args.branchFromThought := None;
             Args.branchId := None |}
  /\ exists stored : ThoughtEntry,
       thoughtHistory
         (fst (sequentialthinking (call "estimate exceeded" 5 3 true None)
                 empty_ledger))
       = [stored]
       /\ totalThoughts stored = 5.
Proof.
  split; [reflexivity |].
  destruct (submit_normalizes (call "estimate exceeded" 5 3 true None) _
              empty_ledger eq_refl)
    as [_ [_ [stored [Hh [_ [Hgt _]]]]]].
  exists stored. split; [exact Hh | apply Hgt; reflexivity].
Defined.

(** C1, the call on which the program fails.  The call with
    [thoughtNumber] 5, [totalThoughts] 3 and the label ["constructor"]
    passes the schema; its entry is stored with [totalThoughts] 5, and
    then [push] throws on the inherited [Object]: the caller gets the
    [isError] answer, and no summary with a [totalThoughts] or a
    [thoughtNumber] is returned. *)
Theorem adjusted_entry_without_summary :
  schema (call "x" 5 3 true (Some "constructor"))
  = Valid {| Args.thought := "x";
             Args.thoughtNumber := 5;
             Args.totalThoughts := 3;
             Args.nextThoughtNeeded := true;
             Args.isRevision := false;
             Args.revisesThought := None;
             Args.branchFromThought := None;
             Args.branchId := Some "constructor" |}
  /\ sequentialthinking (call "x" 5 3 true (Some "constructor"))
       empty_ledger
     = ({| thoughtHistory :=
             [ {| thought := "x";
                  thoughtNumber := 5;
                  totalThoughts := 5;
                  isRevision := false;
                  revisesThought := None;
                  branchFromThought := None;
                  branchId := Some "constructor";
                  needsMoreThoughts := true |} ];
           branches := [] |},
        IsError "Error: branches[input.branchId].push is not a function").
Proof. split; reflexivity. Qed.

(** The count, where the calls return.  In a session of accepted
    submissions that starts from the empty
    ledger, the history holds one entry per submission, the
    [thoughtHistoryLength] returned by the Nth submission is N, and the
    Nth submission does return it whenever its branch label is not the
    name of an inherited property.  Said per call: an accepted submission
    makes the history one entry longer, and a returned
    [thoughtHistoryLength] is the length after that append. *)
Theorem history_length_returned (raws : list Raw.t) :
  Forall (fun raw => exists a, schema raw = Valid a) raws ->
  List.length (thoughtHistory (fst (session raws empty_ledger)))
  = List.length raws
  /\ (forall n s,
        nth_error (snd (session raws empty_ledger)) n = Some (Content s) ->
        Summary.thoughtHistoryLength s = Z.of_nat (S n))
  /\ (forall n raw a,
        nth_error raws n = Some raw -> schema raw = Valid a ->
        own_label (entry a) ->
        exists s,
          nth_error (snd (session raws empty_ledger)) n = Some (Content s)
          /\ Summary.thoughtHistoryLength s = Z.of_nat (S n))
  /\ (forall raw a st, schema raw = Valid a ->
        List.length (thoughtHistory (fst (sequentialthinking raw st)))
        = S (List.length (thoughtHistory st))
        /\ forall s, snd (sequentialthinking raw st) = Content s ->
             Summary.thoughtHistoryLength s
             = Z.of_nat
                 (List.length
                    (thoughtHistory (fst (sequentialthinking raw st))))).
Proof.
  intros Hv.
  destruct (session_counts raws empty_ledger Hv) as [H1 [H2 H3]].
  split; [exact H1 |]. split; [exact H2 |]. split.
  - intros n raw a Hn Hs Hown.
    destruct (H3 n raw a Hn Hs Hown) as [s Hr].
    exists s. split; [exact Hr | exact (H2 n s Hr)].
  - intros raw a st. apply sequentialthinking_length.
Qed.

Lemma accepted_call (t : string) (n total : Z) (next : bool)
    (l : option string) :
  1 <= n -> 1 <= total -> exists a, schema (call t n total next l) = Valid a.
Proof.
  intros Hn Ht. unfold schema, call. simpl.
  destruct (Z.leb_spec 1 n) as [_ | H]; [|lia].
  destruct (Z.leb_spec 1 total) as [_ | H]; [|lia].
  destruct l; simpl; eexists; reflexivity.
Qed.

Lemma history_length_returned_witness :
  Forall (fun raw => exists a, schema raw = Valid a)
    [call "one" 1 2 true None; call "two" 2 2 false (Some "alt")]
  /\ List.length
       (thoughtHistory
          (fst (session
                  [call "one" 1 2 true None;
                   call "two" 2 2 false (Some "alt")]
                  empty_ledger)))
     = 2%nat.
Proof.
  assert (Hv : Forall (fun raw => exists a, schema raw = Valid a)
                 [call "one" 1 2 true None;
                  call "two" 2 2 false (Some "alt")]).
  { repeat constructor; apply accepted_call; lia. }
  split; [exact Hv | exact (proj1 (history_length_returned _ Hv))].
Defined.

(** C2, the session in which the program fails.  Both calls pass the
    schema; the first returns the length 1; the second, labelled
    ["toString"], makes the history two entries long and is answered with
    the [isError] text: the second submission returns no
    [thoughtHistoryLength]. *)
Theorem second_call_returns_no_length :
  map accepted
    [call "one" 1 2 true None; call "two" 2 2 false (Some "toString")]
  = [true; true]
  /\ snd (session
            [call "one" 1 2 true None;
             call "two" 2 2 false (Some "toString")]
            empty_ledger)
     = [ Content {| Summary.thoughtNumber := 1;
                    Summary.totalThoughts := 2;
                    Summary.nextThoughtNeeded := true;
                    Summary.branches := [];
                    Summary.thoughtHistoryLength := 1 |};
         IsError "Error: branches[input.branchId].push is not a function" ]
  /\ List.length
       (thoughtHistory
          (fst (session
                  [call "one" 1 2 true None;
                   call "two" 2 2 false (Some "toString")]
                  empty_ledger)))
     = 2%nat.
Proof. repeat split. Qed.

(** C3, as the program has it.  The schema asks for a string under
    [thought] and for no minimal length.  A call whose [thought] is
    missing or is not a string is refused with a validation error and the
    ledger is left as it was; whatever the refused key, a refusal leaves
    the ledger as it was; and an accepted call stays accepted when its
    [thought] is replaced by the empty string, which is then stored like
    any other. *)
Theorem validation_before_mutation (raw : Raw.t) (st : Ledger) :
  ((forall s, Raw.thought raw <> JString s) ->
   sequentialthinking raw st = (st, ValidationError "thought"))
  /\ (forall key, snd (sequentialthinking raw st) = ValidationError key ->
      fst (sequentialthinking raw st) = st)
  /\ (forall a, schema raw = Valid a ->
      exists a',
        schema (with_thought raw (JString "")) = Valid a'
        /\ Args.thought a' = ""
        /\ thoughtHistory
             (fst (sequentialthinking (with_thought raw (JString "")) st))
           = thoughtHistory st ++ [adjust (entry a')]).
Proof.
  split; [|split].
  - intros H. apply sequentialthinking_invalid.
    now apply schema_thought_refused.
  - intros key. destruct (schema raw) as [a|key'] eqn:Hs.
    + destruct (sequentialthinking_valid raw a st Hs) as [_ ->].
      now destruct (snd (processThought (entry a) st)).
    + now rewrite (sequentialthinking_invalid raw key' st Hs).
  - intros a Hs. eexists. split; [exact (schema_any_thought raw a "" Hs) |].
    split; [reflexivity |].
    destruct (sequentialthinking_valid _ _ st
                (schema_any_thought raw a "" Hs)) as [-> _].
    apply processThought_history.
Qed.

Lemma validation_before_mutation_witness :
  sequentialthinking (with_thought (call "x" 1 1 false None) JNull)
    empty_ledger
  = (empty_ledger, ValidationError "thought").
Proof.
  apply (proj1 (validation_before_mutation _ empty_ledger)).
  intros s. discriminate.
Defined.

(** C3, refuted as stated: a call with the empty string under [thought]
    is answered with a summary, and the history has grown. *)
Lemma empty_thought_is_stored :
  Raw.thought (call "" 1 1 false None) = JString ""
  /\ sequentialthinking (call "" 1 1 false None) empty_ledger
     = ({| thoughtHistory :=
             [ {| thought := "";
                  thoughtNumber := 1;
                  totalThoughts := 1;
                  isRevision := false;
                  revisesThought := None;
                  branchFromThought := None;
                  branchId := None;
                  needsMoreThoughts := false |} ];
           branches := [] |},
        Content {| Summary.thoughtNumber := 1;
                   Summary.totalThoughts := 1;
                   Summary.nextThoughtNeeded := false;
                   Summary.branches := [];
                   Summary.thoughtHistoryLength := 1 |}).
Proof. split; reflexivity. Qed.

(** C4, the call on which the program fails.  The label ["constructor"]
    passes the schema; [branches["constructor"]] is the inherited
    [Object], which is truthy and has no [push]: the entry is already in
    the history when the [TypeError] is thrown, and the caller gets the
    [isError] answer instead of a summary. *)
Theorem inherited_label_is_error :
  schema (call "x" 1 1 false (Some "constructor"))
  = Valid {| Args.thought := "x";
             Args.thoughtNumber := 1;
             Args.totalThoughts := 1;
             Args.nextThoughtNeeded := false;
             Args.isRevision := false;
             Args.revisesThought := None;
             Args.branchFromThought := None;
             Args.branchId := Some "constructor" |}
  /\ sequentialthinking (call "x" 1 1 false (Some "constructor"))
       empty_ledger
     = ({| thoughtHistory :=
             [ {| thought := "x";
                  thoughtNumber := 1;
                  totalThoughts := 1;
                  isRevision := false;
                  revisesThought := None;
                  branchFromThought := None;
                  branchId := Some "constructor";
                  needsMoreThoughts := false |} ];
           branches := [] |},
        IsError "Error: branches[input.branchId].push is not a function").
Proof. split; reflexivity. Qed.

(** The same in every reachable ledger, for every inherited name. *)
Lemma inherited_label_throws (e : ThoughtEntry) (st : Ledger) (id : string) :
  reachable st -> label e = Some id -> inherited id = true ->
  processThought e st
  = ({| thoughtHistory := thoughtHistory st ++ [adjust e];
        branches := branches st |},
     Throw not_a_function).
Proof.
  intros Hr Hl Hinh. apply reachable_invariant in Hr.
  assert (Ho : getOwnProperty (branches st) id = None).
  { rewrite (inv_branch st Hr). apply branch_of_history_excluded.
    rewrite Hinh. apply orb_true_r. }
  rewrite <- adjust_label in Hl.
  unfold processThought.
  now rewrite (track_branch_inherited (adjust e) (branches st) id Hl Ho Hinh).
Qed.

Lemma unlabelled_keeps_branches (input : ThoughtEntry) (st : Ledger) :
  branchId input = None \/ branchId input = Some "" ->
  branches (fst (processThought input st)) = branches st.
Proof.
  intros H. rewrite processThought_branches.
  rewrite track_branch_unlabelled; [reflexivity |].
  rewrite adjust_label. now apply label_None.
Qed.

(** C5, as the program has it.  When [branchId] is a non-empty string
    that is not the name of an inherited property, the call leaves under
    that label the sequence that was there, or the empty one on first use,
    with the adjusted entry appended, and every other label as it was.
    When [branchId] is absent or is the empty string, [branches] is left
    as it was. *)
Theorem branch_filing (input : ThoughtEntry) (st : Ledger) :
  (forall id, branchId input = Some id -> id <> "" -> inherited id = false ->
     getOwnProperty (branches (fst (processThought input st))) id
     = Some (match getOwnProperty (branches st) id with
             | Some items => items
             | None => []
             end ++ [adjust input])
     /\ forall k, k <> id ->
          getOwnProperty (branches (fst (processThought input st))) k
          = getOwnProperty (branches st) k)
  /\ (branchId input = None \/ branchId input = Some "" ->
      branches (fst (processThought input st)) = branches st).
Proof.
  split.
  - intros id Hb Hne Hinh.
    assert (Hl : label (adjust input) = Some id).
    { rewrite adjust_label. apply label_Some. auto. }
    rewrite processThought_branches.
    destruct (getOwnProperty (branches st) id) as [items|] eqn:Ho.
    + rewrite (track_branch_existing _ _ id items Hl Ho). simpl. split.
      * now rewrite getOwnProperty_pushOwn, String.eqb_refl, Ho.
      * intros k Hk. apply String.eqb_neq in Hk.
        now rewrite getOwnProperty_pushOwn, Hk.
    + rewrite (track_branch_first_use _ _ id Hl Ho Hinh). simpl. split.
      * now rewrite getOwnProperty_pushOwn, String.eqb_refl,
          getOwnProperty_define, Ho, String.eqb_refl.
      * intros k Hk. apply String.eqb_neq in Hk.
        rewrite getOwnProperty_pushOwn, Hk, getOwnProperty_define, Hk.
        now destruct (getOwnProperty (branches st) k).
  - apply unlabelled_keeps_branches.
Qed.

Lemma branch_filing_witness :
  getOwnProperty
    (branches
       (fst (processThought
               (mkThoughtEntry "x" 1 1 false None None (Some "alt") false)
               empty_ledger)))
    "alt"
  = Some [mkThoughtEntry "x" 1 1 false None None (Some "alt") false].
Proof.
  apply (proj1 (branch_filing
                  (mkThoughtEntry "x" 1 1 false None None (Some "alt") false)
                  empty_ledger)
           "alt" eq_refl).
  - discriminate.
  - reflexivity.
Defined.

(** C5, refuted as stated: a call whose [branchId] is present and is the
    empty string is stored in the history, and no sequence exists for the
    label afterwards. *)
Lemma empty_branchId_files_nothing :
  Raw.branchId (call "x" 1 1 false (Some "")) = JString ""
  /\ fst (sequentialthinking (call "x" 1 1 false (Some "")) empty_ledger)
     = {| thoughtHistory :=
            [mkThoughtEntry "x" 1 1 false None None (Some "") false];
          branches := [] |}
  /\ Get
       (branches
          (fst (sequentialthinking (call "x" 1 1 false (Some ""))
                  empty_ledger)))
       ""
     = Undefined.
Proof. repeat split. Qed.

(** C6.  In every reachable ledger, an entry of a sequence held by
    [branches] is an entry of [thoughtHistory]. *)
Theorem branch_entries_in_history (st : Ledger) :
  reachable st ->
  forall k items e,
    In (k, items) (branches st) -> In e items -> In e (thoughtHistory st).
Proof.
  intros Hr k items e Hk He. apply reachable_invariant in Hr.
  assert (Hnd : NoDup (map fst (branches st))).
  { rewrite (inv_keys st Hr). apply first_appearance_NoDup. }
  pose proof (getOwnProperty_In _ _ _ Hnd Hk) as Ho.
  rewrite (inv_branch st Hr) in Ho.
  destruct (branch_of_history_Some _ _ _ Ho) as [-> _].
  apply filter_In in He. tauto.
Qed.

Lemma branch_entries_in_history_witness :
  In (mkThoughtEntry "x" 1 1 false None None (Some "alt") false)
    (thoughtHistory
       (fst (sequentialthinking (call "x" 1 1 false (Some "alt"))
               empty_ledger))).
Proof.
  apply (branch_entries_in_history
           (fst (sequentialthinking (call "x" 1 1 false (Some "alt"))
                   empty_ledger))
           (reachable_call _ _ reachable_empty)
           "alt"
           [mkThoughtEntry "x" 1 1 false None None (Some "alt") false]).
  - left. reflexivity.
  - left. reflexivity.
Defined.

(** C7.  In every reachable ledger, every entry of [thoughtHistory] has a
    [totalThoughts] that is at least its [thoughtNumber]. *)
Theorem stored_total_covers_number (st : Ledger) :
  reachable st ->
  forall e, In e (thoughtHistory st) -> totalThoughts e >= thoughtNumber e.
Proof.
  intros Hr e He. apply reachable_invariant in Hr.
  pose proof (inv_total st Hr) as Ht. rewrite Forall_forall in Ht.
  specialize (Ht e He). lia.
Qed.

Lemma stored_total_covers_number_witness :
  totalThoughts (mkThoughtEntry "x" 4 4 false None None None false)
  >= thoughtNumber (mkThoughtEntry "x" 4 4 false None None None false).
Proof.
  apply (stored_total_covers_number
           (fst (sequentialthinking (call "x" 4 3 false None) empty_ledger))
           (reachable_call _ _ reachable_empty)).
  left. reflexivity.
Defined.

Lemma schema_no_branchId (raw : Raw.t) (a : Args.t) :
  schema raw = Valid a -> Raw.branchId raw = JUndefined ->
  Args.branchId a = None.
Proof.
  unfold schema. intros H Hb. rewrite Hb in H. simpl in H.
  destruct (z_string (Raw.thought raw)); simpl in H; [|discriminate].
  destruct (z_number_int_min1 (Raw.thoughtNumber raw)); simpl in H;
    [|discriminate].
  destruct (z_number_int_min1 (Raw.totalThoughts raw)); simpl in H;
    [|discriminate].
  destruct (z_boolean (Raw.nextThoughtNeeded raw)); simpl in H;
    [|discriminate].
  destruct (optional_default z_boolean false (Raw.isRevision raw));
    simpl in H; [|discriminate].
  destruct (optional z_number_int_min1 (Raw.revisesThought raw));
    simpl in H; [|discriminate].
  destruct (optional z_number_int_min1 (Raw.branchFromThought raw));
    simpl in H; [|discriminate].
  inversion H. reflexivity.
Qed.

Lemma summary_branches (raw : Raw.t) (st : Ledger) (s : Summary.t) :
  snd (sequentialthinking raw st) = Content s ->
  Summary.branches s
  = Object_keys (branches (fst (sequentialthinking raw st))).
Proof.
  destruct (schema raw) as [a|key] eqn:Hs.
  - destruct (sequentialthinking_valid raw a st Hs) as [-> ->].
    rewrite processThought_result.
    destruct (snd (track_branch (adjust (entry a)) (branches st)));
      [|discriminate].
    intros H. inversion H. reflexivity.
  - rewrite (sequentialthinking_invalid raw key st Hs). discriminate.
Qed.

(** C8, as the program has it.  The [branches] of a returned summary is
    [Object.keys] of the map: it holds exactly the labels for which a
    sequence has been created, each once however many entries carry it;
    the labels that are array indices come first, in ascending numeric
    order, and the other labels follow in the order of their first
    appearance, so that the list is the order of first appearance when no
    label is an array index; a call without [branchId] returns the list
    as it stood; and the calls labelled ["a"], ["b"] and not at all return
    [["a"; "b"]] at the third. *)
Theorem branches_listing (raw : Raw.t) (st : Ledger) (s : Summary.t) :
  reachable st ->
  snd (sequentialthinking raw st) = Content s ->
  let labels :=
    first_appearance
      (created (thoughtHistory (fst (sequentialthinking raw st)))) in
  NoDup (Summary.branches s)
  /\ (forall l, In l (Summary.branches s) <-> In l labels)
  /\ (exists idx,
        Summary.branches s
        = map snd idx ++ filter (fun l => negb (is_array_index l)) labels
        /\ Permutation idx (index_keys labels)
        /\ StronglySorted index_le idx)
  /\ (forallb (fun l => negb (is_array_index l)) labels = true ->
      Summary.branches s = labels)
  /\ (Raw.branchId raw = JUndefined ->
      Summary.branches s = Object_keys (branches st))
  /\ (forall e1 e2 e3,
        branchId e1 = Some "a" -> branchId e2 = Some "b" ->
        branchId e3 = None ->
        exists s3,
          snd (processThought e3
                 (fst (processThought e2
                         (fst (processThought e1 empty_ledger)))))
          = Return s3
          /\ Summary.branches s3 = ["a"; "b"]).
Proof.
  intros Hr Hs labels.
  pose proof (summary_branches raw st s Hs) as Hb.
  pose proof (reachable_invariant _ (reachable_call raw st Hr)) as Hinv.
  unfold Object_keys in Hb. rewrite (inv_keys _ Hinv) in Hb.
  fold labels in Hb. rewrite Hb.
  split; [|split; [|split; [|split; [|split]]]].
  - eapply Permutation_NoDup;
      [apply Permutation_sym, own_property_keys_perm |].
    apply first_appearance_NoDup.
  - intros l. split; apply Permutation_in;
      [|apply Permutation_sym]; apply own_property_keys_perm.
  - exists (ascending (index_keys labels)).
    split; [reflexivity |].
    split; [apply ascending_perm | apply ascending_sorted].
  - apply own_property_keys_named.
  - intros Hu. rewrite <- Hb, (summary_branches raw st s Hs).
    destruct (schema raw) as [a|key] eqn:Ha.
    + destruct (sequentialthinking_valid raw a st Ha) as [-> _].
      pose proof (schema_no_branchId raw a Ha Hu) as Hn.
      now rewrite (unlabelled_keeps_branches (entry a) st) by now left.
    + now rewrite (sequentialthinking_invalid raw key st Ha).
  - apply listing_a_b_none.
Qed.

Lemma branches_listing_witness :
  reachable empty_ledger
  /\ snd (sequentialthinking (call "x" 1 1 true (Some "a")) empty_ledger)
     = Content (Summary.mk 1 1 true ["a"] 1)
  /\ NoDup (Summary.branches (Summary.mk 1 1 true ["a"] 1)).
Proof.
  split; [exact reachable_empty |]. split; [reflexivity |].
  exact (proj1 (branches_listing (call "x" 1 1 true (Some "a")) empty_ledger
                  (Summary.mk 1 1 true ["a"] 1) reachable_empty eq_refl)).
Defined.

(** C8, refuted as stated: after the labels ["b"] and then ["1"], the
    summary lists ["1"] before ["b"], against their order of appearance. *)
Lemma index_label_listed_first :
  snd (session [call "x" 1 2 true (Some "b"); call "y" 2 2 false (Some "1")]
         empty_ledger)
  = [ Content (Summary.mk 1 2 true ["b"] 1);
      Content (Summary.mk 2 2 false ["1"; "b"] 2) ]
  /\ first_appearance ["b"; "1"] = ["b"; "1"]
  /\ Summary.branches (Summary.mk 2 2 false ["1"; "b"] 2)
     <> first_appearance ["b"; "1"].
Proof. repeat split. discriminate. Qed.

(** C9.  The three calls of the scenario, from the empty ledger, get the
    three summaries of the scenario, in order. *)
Theorem end_to_end_scenario :
  snd (session
         [ call "step1" 1 3 true None;
           call "step2-alt" 2 3 true (Some "alt");
           call "step4" 4 3 false None ]
         empty_ledger)
  = [ Content {| Summary.thoughtNumber := 1;
                 Summary.totalThoughts := 3;
                 Summary.nextThoughtNeeded := true;
                 Summary.branches := [];
                 Summary.thoughtHistoryLength := 1 |};
      Content {| Summary.thoughtNumber := 2;
                 Summary.totalThoughts := 3;
                 Summary.nextThoughtNeeded := true;
                 Summary.branches := ["alt"];
                 Summary.thoughtHistoryLength := 2 |};
      Content {| Summary.thoughtNumber := 4;
                 Summary.totalThoughts := 4;
                 Summary.nextThoughtNeeded := false;
                 Summary.branches := ["alt"];
                 Summary.thoughtHistoryLength := 3 |} ].
Proof. reflexivity. Qed.

(** C10, the ledger in which the program breaks it.  After one call
    labelled ["constructor"], the history holds an entry with that
    [branchId], and [branches] holds no sequence for it: the read
    [branches["constructor"]] yields the inherited function. *)
Theorem inherited_label_not_tracked :
  let st :=
    fst (sequentialthinking (call "x" 1 1 false (Some "constructor"))
           empty_ledger) in
  reachable st
  /\ filter (labelled "constructor") (thoughtHistory st)
     = [mkThoughtEntry "x" 1 1 false None None (Some "constructor") false]
  /\ getOwnProperty (branches st) "constructor" = None
  /\ Get (branches st) "constructor" = Inherited "constructor".
Proof.
  split; [apply reachable_call, reachable_empty |].
  repeat split.
Qed.

(** What does hold: in every reachable ledger, a non-empty label that is
    not the name of an inherited property owns exactly the entries of the
    history that carry it, in the order of the history, and no sequence
    when none carries it. *)
Lemma branch_is_history_subsequence (st : Ledger) (l : string) :
  reachable st -> l <> "" -> inherited l = false ->
  getOwnProperty (branches st) l
  = match filter (labelled l) (thoughtHistory st) with
    | [] => None
    | items => Some items
    end.
Proof.
  intros Hr Hl Hinh. apply reachable_invariant in Hr.
  rewrite (inv_branch st Hr). unfold branch_of_history.
  apply String.eqb_neq in Hl. now rewrite Hl, Hinh.
Qed.

(** * Further properties of the ledger *)

Lemma session_app (r1 r2 : list Raw.t) (st : Ledger) :
  session (r1 ++ r2) st =
  (fst (session r2 (fst (session r1 st))),
   snd (session r1 st) ++ snd (session r2 (fst (session r1 st)))).
Proof.
  revert st. induction r1 as [|raw r1 IH]; intros st.
  - simpl. now destruct (session r2 st).
  - rewrite <- app_comm_cons, !session_cons, IH. reflexivity.
Qed.

Lemma sequentialthinking_history (raw : Raw.t) (st : Ledger) :
  thoughtHistory (fst (sequentialthinking raw st))
  = thoughtHistory st ++ stored raw.
Proof.
  unfold stored. destruct (schema raw) as [a|key] eqn:Hs.
  - destruct (sequentialthinking_valid raw a st Hs) as [-> _].
    apply processThought_history.
  - rewrite (sequentialthinking_invalid raw key st Hs). simpl.
    now rewrite app_nil_r.
Qed.

(** X1.  The history is an append-only log: after any session, it is the
    history before the session followed by the adjusted entries of the
    accepted calls, in the order of the calls, and by nothing else. *)
Theorem history_is_append_only (raws : list Raw.t) (st : Ledger) :
  thoughtHistory (fst (session raws st))
  = thoughtHistory st ++ flat_map stored raws
  /\ List.length (flat_map stored raws)
     = List.length (filter accepted raws).
Proof.
  split.
  - revert st. induction raws as [|raw raws IH]; intros st.
    + simpl. now rewrite app_nil_r.
    + rewrite session_cons. simpl fst.
      rewrite IH, sequentialthinking_history. simpl.
      now rewrite app_assoc.
  - induction raws as [|raw raws IH]; simpl; [reflexivity |].
    rewrite length_app, IH. unfold stored, accepted.
    now destruct (schema raw).
Qed.

Lemma processThought_keeps_branch (e : ThoughtEntry) (st : Ledger)
    (k : string) (items : list ThoughtEntry) :
  getOwnProperty (branches st) k = Some items ->
  exists more,
    getOwnProperty (branches (fst (processThought e st))) k
    = Some (items ++ more).
Proof.
  intros Hk. rewrite processThought_branches.
  destruct (label (adjust e)) as [id|] eqn:Hl.
  - destruct (getOwnProperty (branches st) id) as [its|] eqn:Ho.
    + rewrite (track_branch_existing _ _ id its Hl Ho). simpl.
      rewrite getOwnProperty_pushOwn.
      destruct (String.eqb_spec k id) as [-> | Hne].
      * rewrite Ho in Hk. inversion Hk; subst its.
        rewrite Ho. simpl. now exists [adjust e].
      * exists []. now rewrite app_nil_r.
    + assert (Hne : k <> id) by (intros ->; congruence).
      apply String.eqb_neq in Hne.
      destruct (inherited id) eqn:Hinh.
      * rewrite (track_branch_inherited _ _ id Hl Ho Hinh). simpl.
        exists []. now rewrite app_nil_r.
      * rewrite (track_branch_first_use _ _ id Hl Ho Hinh). simpl.
        rewrite getOwnProperty_pushOwn, Hne, getOwnProperty_define, Hk.
        exists []. now rewrite app_nil_r.
  - rewrite (track_branch_unlabelled _ _ Hl). simpl.
    exists []. now rewrite app_nil_r.
Qed.

(** X2.  A branch is an append-only log too: a sequence that [branches]
    holds under a label is still held under that label after any session,
    extended at its end and otherwise as it was. *)
Theorem branch_is_append_only (raws : list Raw.t) (st : Ledger)
    (k : string) (items : list ThoughtEntry) :
  getOwnProperty (branches st) k = Some items ->
  exists more,
    getOwnProperty (branches (fst (session raws st))) k
    = Some (items ++ more).
Proof.
  revert st items. induction raws as [|raw raws IH]; intros st items Hk.
  - exists []. now rewrite app_nil_r.
  - rewrite session_cons. simpl fst.
    assert (H1 : exists more,
               getOwnProperty (branches (fst (sequentialthinking raw st))) k
               = Some (items ++ more)).
    { destruct (schema raw) as [a|key] eqn:Hs.
      - destruct (sequentialthinking_valid raw a st Hs) as [-> _].
        now apply processThought_keeps_branch.
      - rewrite (sequentialthinking_invalid raw key st Hs).
        exists []. now rewrite app_nil_r. }
    destruct H1 as [more1 H1].
    destruct (IH _ _ H1) as [more2 H2].
    exists (more1 ++ more2). now rewrite app_assoc.
Qed.

Lemma branch_is_append_only_witness :
  exists more,
    getOwnProperty
      (branches
         (fst (session [call "y" 2 2 false (Some "alt")]
                 (fst (sequentialthinking (call "x" 1 2 true (Some "alt"))
                         empty_ledger))))) "alt"
    = Some ([mkThoughtEntry "x" 1 2 false None None (Some "alt") true]
            ++ more).
Proof.
  apply (branch_is_append_only [call "y" 2 2 false (Some "alt")]
           (fst (sequentialthinking (call "x" 1 2 true (Some "alt"))
                   empty_ledger)) "alt").
  reflexivity.
Defined.

(** X3.  Refused calls leave no trace: a session ends in the ledger in
    which it ends without its refused calls, and the answers to its
    accepted calls are the answers they get without the refused ones. *)
Theorem refused_calls_leave_no_trace (raws : list Raw.t) (st : Ledger) :
  fst (session raws st) = fst (session (filter accepted raws) st)
  /\ filter (fun r => negb (is_refusal r)) (snd (session raws st))
     = snd (session (filter accepted raws) st).
Proof.
  revert st. induction raws as [|raw raws IH]; intros st.
  - split; reflexivity.
  - cbn [filter]. rewrite session_cons. simpl fst. simpl snd.
    destruct (IH (fst (sequentialthinking raw st))) as [IH1 IH2].
    destruct (schema raw) as [a|key] eqn:Hs.
    + assert (Ha : accepted raw = true) by (unfold accepted; now rewrite Hs).
      rewrite Ha, session_cons. simpl fst. simpl snd.
      split; [exact IH1 |].
      destruct (sequentialthinking_valid raw a st Hs) as [_ Hr].
      assert (Hn : is_refusal (snd (sequentialthinking raw st)) = false).
      { rewrite Hr. now destruct (snd (processThought (entry a) st)). }
      cbn [filter]. rewrite Hn. cbn [negb]. now rewrite IH2.
    + assert (Ha : accepted raw = false)
        by (unfold accepted; now rewrite Hs).
      rewrite Ha.
      rewrite (sequentialthinking_invalid raw key st Hs) in *.
      simpl. split; [exact IH1 | exact IH2].
Qed.

Lemma adjust_needsMoreThoughts (e : ThoughtEntry) :
  needsMoreThoughts (adjust e) = needsMoreThoughts e.
Proof. unfold adjust. now destruct (thoughtNumber e >? totalThoughts e). Qed.

(** X4.  What a summary says of an accepted call: its [thoughtNumber] is
    at least 1 and at most its [totalThoughts], its [totalThoughts] is
    never below the total the caller declared, [nextThoughtNeeded] is the
    caller's, and [thoughtHistoryLength] is at least 1. *)
Theorem summary_bounds (raw : Raw.t) (a : Args.t) (st : Ledger)
    (s : Summary.t) :
  schema raw = Valid a ->
  snd (sequentialthinking raw st) = Content s ->
  1 <= Summary.thoughtNumber s <= Summary.totalThoughts s
  /\ Args.totalThoughts a <= Summary.totalThoughts s
  /\ Summary.nextThoughtNeeded s = Args.nextThoughtNeeded a
  /\ 1 <= Summary.thoughtHistoryLength s.
Proof.
  intros Hs Hr.
  destruct (schema_numbers raw a Hs) as [_ [_ [Hn Ht]]].
  destruct (sequentialthinking_valid raw a st Hs) as [_ Hr'].
  rewrite Hr', processThought_result in Hr.
  destruct (snd (track_branch (adjust (entry a)) (branches st)));
    [|discriminate].
  inversion Hr as [Hsum]. simpl.
  rewrite adjust_needsMoreThoughts, processThought_history, length_app.
  simpl. repeat split; lia.
Qed.

Lemma summary_bounds_witness :
  1 <= Summary.thoughtNumber (Summary.mk 4 4 false [] 1)
    <= Summary.totalThoughts (Summary.mk 4 4 false [] 1)
  /\ 3 <= Summary.totalThoughts (Summary.mk 4 4 false [] 1).
Proof.
  destruct (summary_bounds (call "step4" 4 3 false None)
              (Args.mk "step4" 4 3 false false None None None)
              empty_ledger (Summary.mk 4 4 false [] 1) eq_refl eq_refl)
    as [H1 [H2 _]].
  split; [exact H1 | exact H2].
Defined.

Lemma track_branch_by_label (e e' : ThoughtEntry) (o : PropertyList) :
  branchId e = branchId e' ->
  snd (track_branch e o) = snd (track_branch e' o)
  /\ map fst (fst (track_branch e o)) = map fst (fst (track_branch e' o)).
Proof.
  intros Hb. unfold track_branch. rewrite Hb.
  destruct (branchId e') as [id|]; [|auto].
  destruct (truthy_branchId (Some id)); [|auto].
  destruct (Get (if negb (truthy (Get o id)) then defineProperty o id else o)
              id); simpl; auto.
  now rewrite !pushOwn_keys.
Qed.

(** X5.  The references of an entry are never looked at: two accepted
    calls that agree on [thoughtNumber], [totalThoughts],
    [nextThoughtNeeded] and [branchId] get the same answer in the same
    ledger, whatever their [thought], [isRevision], [revisesThought] and
    [branchFromThought]. *)
Theorem answer_ignores_references (a a' : Args.t) (st : Ledger) :
  Args.thoughtNumber a = Args.thoughtNumber a' ->
  Args.totalThoughts a = Args.totalThoughts a' ->
  Args.nextThoughtNeeded a = Args.nextThoughtNeeded a' ->
  Args.branchId a = Args.branchId a' ->
  snd (handler a st) = snd (handler a' st).
Proof.
  intros Hn Ht Hx Hb.
  assert (Hbr : branchId (adjust (entry a)) = branchId (adjust (entry a'))).
  { now rewrite !adjust_branchId. }
  destruct (track_branch_by_label _ _ (branches st) Hbr) as [Hc Hk].
  assert (H : snd (processThought (entry a) st)
              = snd (processThought (entry a') st)).
  { rewrite !processThought_result, Hc.
    destruct (snd (track_branch (adjust (entry a')) (branches st)));
      [|reflexivity].
    unfold Object_keys.
    rewrite !processThought_branches, Hk, !processThought_history,
      !length_app, !adjust_needsMoreThoughts.
    simpl. now rewrite Hn, Ht, Hx. }
  unfold handler.
  destruct (processThought (entry a) st) as [st1 c1].
  destruct (processThought (entry a') st) as [st2 c2].
  simpl in H. subst c2. now destruct c1.
Qed.

Lemma answer_ignores_references_witness :
  snd (handler (Args.mk "first" 2 3 true false None None (Some "alt"))
         empty_ledger)
  = snd (handler
           (Args.mk "other" 2 3 true true (Some 99) (Some 77) (Some "alt"))
           empty_ledger).
Proof.
  apply (answer_ignores_references
           (Args.mk "first" 2 3 true false None None (Some "alt"))
           (Args.mk "other" 2 3 true true (Some 99) (Some 77) (Some "alt"))
           empty_ledger); reflexivity.
Defined.

(** X6.  A label listed in a summary is never the empty string nor the
    name of an inherited property, and the ledger then holds under it a
    sequence that is not empty and whose entries all carry that label as
    their [branchId]. *)
Theorem listed_labels_have_entries (raw : Raw.t) (st : Ledger)
    (s : Summary.t) (l : string) :
  reachable st ->
  snd (sequentialthinking raw st) = Content s ->
  In l (Summary.branches s) ->
  l <> "" /\ inherited l = false
  /\ exists items,
       getOwnProperty (branches (fst (sequentialthinking raw st))) l
       = Some items
       /\ items <> []
       /\ forall e, In e items -> branchId e = Some l.
Proof.
  intros Hr Hs Hl.
  pose proof (reachable_invariant _ (reachable_call raw st Hr)) as Hinv.
  rewrite (summary_branches raw st s Hs) in Hl.
  apply (Permutation_in _ (own_property_keys_perm _)) in Hl.
  destruct (getOwnProperty (branches (fst (sequentialthinking raw st))) l)
    as [items|] eqn:Ho.
  - pose proof Ho as Hb. rewrite (inv_branch _ Hinv) in Hb.
    destruct (branch_of_history_Some _ _ _ Hb) as [Hitems [Hne Hinh]].
    split; [exact Hne |]. split; [exact Hinh |].
    exists items. split; [reflexivity |]. split.
    + intros ->. unfold branch_of_history in Hb.
      apply String.eqb_neq in Hne. rewrite Hne, Hinh in Hb. simpl in Hb.
      destruct (filter (labelled l) _); discriminate.
    + intros e He. rewrite Hitems in He. apply filter_In in He.
      now apply labelled_true.
  - apply getOwnProperty_None in Ho. contradiction.
Qed.

Lemma listed_labels_have_entries_witness :
  "alt" <> ""
  /\ inherited "alt" = false
  /\ exists items,
       getOwnProperty
         (branches
            (fst (sequentialthinking (call "x" 1 1 true (Some "alt"))
                    empty_ledger))) "alt"
       = Some items
       /\ items <> []
       /\ forall e, In e items -> branchId e = Some "alt".
Proof.
  apply (listed_labels_have_entries (call "x" 1 1 true (Some "alt"))
           empty_ledger (Summary.mk 1 1 true ["alt"] 1) "alt"
           reachable_empty eq_refl).
  left. reflexivity.
Defined.

(** ** What the schema accepts *)

Lemma z_string_Some (v : JSValue) (s : string) :
  z_string v = Some s -> is_string v.
Proof. destruct v; try discriminate. intros _. now eexists. Qed.

Lemma z_boolean_Some (v : JSValue) (b : bool) :
  z_boolean v = Some b -> is_boolean v.
Proof. destruct v; try discriminate. intros _. now eexists. Qed.

Lemma z_number_int_min1_Some (v : JSValue) (n : Z) :
  z_number_int_min1 v = Some n -> is_count v.
Proof.
  destruct v as [| | |[z|]| |]; try discriminate. simpl.
  destruct (Z.leb_spec 1 z) as [Hz | Hz]; [|discriminate].
  intros _. exists z. auto.
Qed.

Lemma optional_Some {A : Type} (p : JSValue -> option A)
    (P : JSValue -> Prop) (v : JSValue) (o : option A) :
  (forall x, p v = Some x -> P v) -> optional p v = Some o -> absent_or P v.
Proof.
  intros Hp. unfold optional, absent_or.
  destruct v; auto; destruct (p _) eqn:E; try discriminate;
    intros _; right; eapply Hp; reflexivity.
Qed.

Lemma optional_default_Some (v : JSValue) (b : bool) :
  optional_default z_boolean false v = Some b -> absent_or is_boolean v.
Proof.
  unfold absent_or. destruct v; try discriminate; auto.
  intros _. right. now eexists.
Qed.

Lemma schema_well_typed (raw : Raw.t) (a : Args.t) :
  schema raw = Valid a -> well_typed raw.
Proof.
  unfold schema, well_typed.
  destruct (z_string (Raw.thought raw)) eqn:E1; simpl; [|discriminate].
  destruct (z_number_int_min1 (Raw.thoughtNumber raw)) eqn:E2; simpl;
    [|discriminate].
  destruct (z_number_int_min1 (Raw.totalThoughts raw)) eqn:E3; simpl;
    [|discriminate].
  destruct (z_boolean (Raw.nextThoughtNeeded raw)) eqn:E4; simpl;
    [|discriminate].
  destruct (optional_default z_boolean false (Raw.isRevision raw)) eqn:E5;
    simpl; [|discriminate].
  destruct (optional z_number_int_min1 (Raw.revisesThought raw)) eqn:E6;
    simpl; [|discriminate].
  destruct (optional z_number_int_min1 (Raw.branchFromThought raw)) eqn:E7;
    simpl; [|discriminate].
  destruct (optional z_string (Raw.branchId raw)) eqn:E8; simpl;
    [|discriminate].
  intros _.
  split; [eapply z_string_Some; eassumption |].
  split; [eapply z_number_int_min1_Some; eassumption |].
  split; [eapply z_number_int_min1_Some; eassumption |].
  split; [eapply z_boolean_Some; eassumption |].
  split; [eapply optional_default_Some; eassumption |].
  split; [eapply optional_Some; [|eassumption];
          apply z_number_int_min1_Some |].
  split; [eapply optional_Some; [|eassumption];
          apply z_number_int_min1_Some |].
  eapply optional_Some; [|eassumption]. apply z_string_Some.
Qed.

(** X8.  [null] does not stand for a missing value: a call with [null]
    under one of the four optional keys is refused, and the ledger is
    left as it was. *)
Theorem null_is_refused (raw : Raw.t) (st : Ledger) :
  Raw.isRevision raw = JNull \/ Raw.revisesThought raw = JNull
  \/ Raw.branchFromThought raw = JNull \/ Raw.branchId raw = JNull ->
  exists key, sequentialthinking raw st = (st, ValidationError key).
Proof.
  intros H. destruct (schema raw) as [a|key] eqn:Hs.
  - exfalso. apply schema_well_typed in Hs.
    destruct Hs as [_ [_ [_ [_ [H5 [H6 [H7 H8]]]]]]].
    destruct H as [H | [H | [H | H]]]; rewrite H in *.
    + destruct H5 as [H5 | [b H5]]; discriminate.
    + destruct H6 as [H6 | [n [_ H6]]]; discriminate.
    + destruct H7 as [H7 | [n [_ H7]]]; discriminate.
    + destruct H8 as [H8 | [l H8]]; discriminate.
  - exists key. now apply sequentialthinking_invalid.
Qed.

Lemma null_is_refused_witness :
  exists key,
    sequentialthinking
      (Raw.mk (JString "x") (JNumber (Integral 1)) (JNumber (Integral 1))
         (JBoolean false) JUndefined JUndefined JUndefined JNull)
      empty_ledger
    = (empty_ledger, ValidationError key).
Proof.
  apply (null_is_refused
           (Raw.mk (JString "x") (JNumber (Integral 1))
              (JNumber (Integral 1)) (JBoolean false)
              JUndefined JUndefined JUndefined JNull)
           empty_ledger).
  right. right. right. reflexivity.
Defined.

(** X9.  In every reachable ledger, the read [branches[l]] of a label
    that is not empty and not the name of an inherited property yields
    the entries of the history that carry the label, all of them and in
    the order of the history, and [undefined] when no entry carries it. *)
Theorem branches_mirror_history (st : Ledger) (l : string) :
  reachable st -> l <> "" -> inherited l = false ->
  Get (branches st) l
  = match filter (labelled l) (thoughtHistory st) with
    | [] => Undefined
    | items => ArrayOf items
    end.
Proof.
  intros Hr Hl Hinh. unfold Get.
  rewrite (branch_is_history_subsequence st l Hr Hl Hinh), Hinh.
  now destruct (filter (labelled l) (thoughtHistory st)).
Qed.

Lemma branches_mirror_history_witness :
  Get (branches
         (fst (session [call "x" 1 3 true (Some "alt");
                        call "y" 2 3 true None;
                        call "z" 3 3 false (Some "alt")]
                 empty_ledger))) "alt"
  = ArrayOf [mkThoughtEntry "x" 1 3 false None None (Some "alt") true;
             mkThoughtEntry "z" 3 3 false None None (Some "alt") false].
Proof.
  apply (branches_mirror_history
           (fst (session [call "x" 1 3 true (Some "alt");
                          call "y" 2 3 true None;
                          call "z" 3 3 false (Some "alt")]
                   empty_ledger))
           "alt" (session_reachable _ _ reachable_empty)).
  - discriminate.
  - reflexivity.
Defined.

(** X10.  In every reachable ledger, an accepted call whose [branchId]
    is the name of an inherited property is answered with the [isError]
    text of the [TypeError]; its adjusted entry is in the history all the
    same, and [branches] is left as it was. *)
Theorem inherited_label_always_fails (raw : Raw.t) (a : Args.t)
    (st : Ledger) (id : string) :
  reachable st -> schema raw = Valid a ->
  Args.branchId a = Some id -> inherited id = true ->
  sequentialthinking raw st
  = ({| thoughtHistory := thoughtHistory st ++ [adjust (entry a)];
        branches := branches st |},
     IsError ("Error: " ++ not_a_function)%string).
Proof.
  intros Hr Hs Hb Hinh.
  assert (Hl : label (entry a) = Some id).
  { apply label_Some. split; [exact Hb |]. intros ->. discriminate. }
  unfold sequentialthinking, handler. rewrite Hs.
  now rewrite (inherited_label_throws (entry a) st id Hr Hl Hinh).
Qed.

Lemma inherited_label_always_fails_witness :
  sequentialthinking (call "x" 1 1 false (Some "valueOf")) empty_ledger
  = ({| thoughtHistory :=
          [mkThoughtEntry "x" 1 1 false None None (Some "valueOf") false];
        branches := [] |},
     IsError "Error: branches[input.branchId].push is not a function").
Proof.
  apply (inherited_label_always_fails
           (call "x" 1 1 false (Some "valueOf"))
           (Args.mk "x" 1 1 false false None None (Some "valueOf"))
           empty_ledger "valueOf" reachable_empty);
    reflexivity.
Defined.

(** * Properties of the Linear server *)

Import Linear.

(** X11.  [linearRequest] returns [data.data], which is [undefined]
    when the body has no such member, exactly when [fetch] resolved, the
    response is [ok], its body is JSON other than [null], and the
    [errors] member of the body is missing or falsy.  A response that is
    not [ok] is reported by its status whatever its body; a truthy
    [errors] member, the empty array included, is thrown as a GraphQL
    error and the data is dropped; and the body [null] ends in the
    [TypeError] of reading [errors] of it. *)
Theorem linearRequest_outcome (stringify : Json -> string)
    (fetch : Request -> Fetched) (q : string) (v : option Fields) :
  (forall d,
     linearRequest stringify fetch q v = Return d <->
     exists response body,
       fetch (mkRequest q v) = Resolved response
       /\ ok response = true
       /\ json response = Return body
       /\ body <> JsonNull
       /\ (forall e, property body "errors" = Return (Some e) ->
           ToBoolean e = false)
       /\ property body "data" = Return d)
  /\ (forall response,
        fetch (mkRequest q v) = Resolved response ->
        ok response = false ->
        linearRequest stringify fetch q v
        = Throw ("Linear API error: "
                 ++ NilZero.string_of_uint (Nat.to_uint (status response))
                 ++ " " ++ statusText response)%string)
  /\ (forall response body e,
        fetch (mkRequest q v) = Resolved response ->
        ok response = true ->
        json response = Return body ->
        property body "errors" = Return (Some e) ->
        ToBoolean e = true ->
        linearRequest stringify fetch q v
        = Throw ("Linear GraphQL error: " ++ stringify e)%string)
  /\ (forall response,
        fetch (mkRequest q v) = Resolved response ->
        ok response = true ->
        json response = Return JsonNull ->
        linearRequest stringify fetch q v
        = Throw "Cannot read properties of null (reading 'errors')").
Proof.
  unfold linearRequest. split; [|split; [|split]].
  - intros d. split.
    + destruct (fetch _) as [m|response]; [discriminate |].
      destruct (ok response) eqn:Hok; simpl; [|discriminate].
      destruct (json response) as [body|m] eqn:Hj; [|discriminate].
      destruct (property body "errors") as [[e|]|m] eqn:He;
        [| |discriminate].
      * destruct (ToBoolean e) eqn:Ht; [discriminate |].
        intros Hd. exists response, body.
        repeat split; auto.
        -- intros ->. discriminate.
        -- intros e' He'. rewrite He in He'. inversion He'; subst.
           exact Ht.
      * intros Hd. exists response, body.
        repeat split; auto.
        -- intros ->. discriminate.
        -- intros e' He'. rewrite He in He'. discriminate.
    + intros [response [body [-> [-> [-> [Hn [He Hd]]]]]]]. simpl.
      destruct (property body "errors") as [[e|]|m] eqn:Hp.
      * now rewrite (He e eq_refl).
      * exact Hd.
      * destruct body; try discriminate; contradiction.
  - intros response -> ->. reflexivity.
  - intros response body e -> -> -> -> ->. reflexivity.
  - intros response -> -> ->. reflexivity.
Qed.

Lemma linearRequest_outcome_witness :
  linearRequest (fun _ => "[]")
    (fun _ =>
       Resolved
         (mkHttpResponse true 200 "OK"
            (Return
               (JsonObject [("data", JsonObject []);
                            ("errors", JsonArray [])]))))
    "query { viewer { id } }" None
  = Throw "Linear GraphQL error: []".
Proof.
  apply (proj1 (proj2 (proj2
           (linearRequest_outcome (fun _ => "[]")
              (fun _ =>
                 Resolved
                   (mkHttpResponse true 200 "OK"
                      (Return
                         (JsonObject [("data", JsonObject []);
                                      ("errors", JsonArray [])]))))
              "query { viewer { id } }" None)))
           (mkHttpResponse true 200 "OK"
              (Return
                 (JsonObject [("data", JsonObject []);
                              ("errors", JsonArray [])])))
           (JsonObject [("data", JsonObject []); ("errors", JsonArray [])])
           (JsonArray [])
           eq_refl eq_refl eq_refl eq_refl eq_refl).
Defined.

(** X12.  The [input] that [create_issue] sends always has [title] and
    [teamId], as given; it has [priority] exactly when a priority was
    given, the priority 0 included; [labelIds] only for a list that is
    not empty; [description], [assigneeId] and [stateId] only for strings
    that are not empty; and no other key, the keys standing in that fixed
    order. *)
Theorem create_issue_input (a : create_issue.Args) :
  let input := create_issue.input a in
  get input "title" = Some (VString (create_issue.title a))
  /\ get input "teamId" = Some (VString (create_issue.team_id a))
  /\ get input "priority" = option_map VNumber (create_issue.priority a)
  /\ get input "labelIds"
     = match create_issue.label_ids a with
       | Some (id :: ids) => Some (VStrings (id :: ids))
       | Some [] | None => None
       end
  /\ get input "description"
     = (if truthy_string (create_issue.description a)
        then option_map VString (create_issue.description a) else None)
  /\ get input "assigneeId"
     = (if truthy_string (create_issue.assignee_id a)
        then option_map VString (create_issue.assignee_id a) else None)
  /\ get input "stateId"
     = (if truthy_string (create_issue.state_id a)
        then option_map VString (create_issue.state_id a) else None)
  /\ subsequence (map fst input)
       ["title"; "teamId"; "description"; "priority"; "labelIds";
        "assigneeId"; "stateId"]
     = true.
Proof.
  destruct a as [t d team p l asg stt].
  destruct d as [[|c1 d]|]; destruct p as [p|]; destruct l as [[|id ids]|];
    destruct asg as [[|c2 asg]|]; destruct stt as [[|c3 stt]|];
    repeat split.
Qed.

(** X13.  The [input] that [update_issue] sends has [labelIds] whenever a
    list was given, the empty list included, which [create_issue] never
    sends; it has [priority] exactly when one was given; it has [title]
    only for a title that is not empty; it is the empty object exactly
    when nothing that counts was given; and the issue goes under [id]. *)
Theorem update_issue_input (a : update_issue.Args) :
  let input := update_issue.input a in
  get input "labelIds" = option_map VStrings (update_issue.label_ids a)
  /\ get input "priority" = option_map VNumber (update_issue.priority a)
  /\ get input "title"
     = (if truthy_string (update_issue.title a)
        then option_map VString (update_issue.title a) else None)
  /\ (input = [] <->
      truthy_string (update_issue.title a) = false
      /\ truthy_string (update_issue.description a) = false
      /\ update_issue.priority a = None
      /\ truthy_string (update_issue.state_id a) = false
      /\ truthy_string (update_issue.assignee_id a) = false
      /\ update_issue.label_ids a = None)
  /\ subsequence (map fst input)
       ["title"; "description"; "priority"; "stateId"; "assigneeId";
        "labelIds"]
     = true
  /\ variables (update_issue.request a)
     = Some [("id", VString (update_issue.issue_id a));
             ("input", VObject input)].
Proof.
  destruct a as [i t d p stt asg l].
  destruct t as [[|c0 t]|]; destruct d as [[|c1 d]|]; destruct p as [p|];
    destruct stt as [[|c3 stt]|]; destruct asg as [[|c2 asg]|];
    destruct l as [l|];
    repeat split; try discriminate;
    try (intros H; decompose [and] H; discriminate).
Qed.

(** X14.  In [search_issues] a query string overrides the filters: when
    [query] is a string that is not empty, the request is the same
    whatever [team_id], [state_name] and [assignee_id] are. *)
Theorem search_query_overrides_filters (a a' : search_issues.Args) :
  truthy_string (search_issues.query a) = true ->
  search_issues.query a' = search_issues.query a ->
  search_issues.limit a' = search_issues.limit a ->
  search_issues.request a' = search_issues.request a.
Proof.
  intros Hq Hsame Hlimit.
  unfold search_issues.request, search_issues.gqlQuery,
    search_issues.variables.
  now rewrite Hsame, Hlimit, Hq.
Qed.

Lemma search_query_overrides_filters_witness :
  search_issues.request
    (search_issues.mk (Some "crash") (Some "team-1") (Some "Done") None 10)
  = search_issues.request
      (search_issues.mk (Some "crash") None None None 10).
Proof.
  apply (search_query_overrides_filters
           (search_issues.mk (Some "crash") None None None 10)
           (search_issues.mk (Some "crash") (Some "team-1") (Some "Done")
              None 10));
    reflexivity.
Defined.

Lemma filters_truthy (a : search_issues.Args) :
  truthy_string (search_issues.team_id a) = false ->
  truthy_string (search_issues.state_name a) = false ->
  truthy_string (search_issues.assignee_id a) = false ->
  search_issues.filters a = [].
Proof.
  unfold search_issues.filters, search_issues.push_if_truthy.
  intros -> -> ->.
  destruct (search_issues.team_id a), (search_issues.state_name a),
    (search_issues.assignee_id a); reflexivity.
Qed.

Lemma limit_schema_bounds (given : option Q) (l : Q) :
  search_issues.limit_schema given = Some l -> (1 <= l <= 50)%Q.
Proof.
  unfold search_issues.limit_schema. destruct given as [q|].
  - destruct (Qle_bool 1 q) eqn:H1; simpl; [|discriminate].
    destruct (Qle_bool q 50) eqn:H2; [|discriminate].
    intros H. inversion H; subst l.
    split; now apply Qle_bool_iff.
  - intros H. inversion H. split; discriminate.
Qed.

Lemma limit_is_truthy (l : Q) : (1 <= l)%Q -> Qeq_bool l 0 = false.
Proof.
  intros Hl. destruct (Qeq_bool l 0) eqn:E; [|reflexivity].
  apply Qeq_bool_iff in E. rewrite E in Hl. now destruct Hl.
Qed.

(** X15.  For every limit that the schema of [search_issues] hands to
    the handler, the one given when it lies between 1 and 50 and 10 when
    none is given, the variable [first] is that limit: the fallback of
    [limit || 10] never applies.  Without a query and without a filter
    that is not empty, the request then asks for [issues(first: $first)]
    with no filter argument and sends [first] alone. *)
Theorem search_without_arguments (a : search_issues.Args)
    (given : option Q) :
  search_issues.limit_schema given = Some (search_issues.limit a) ->
  (1 <= search_issues.limit a <= 50)%Q
  /\ (given = None -> search_issues.limit a = 10%Q)
  /\ get (search_issues.variables a) "first"
     = Some (VNumber (search_issues.limit a))
  /\ (truthy_string (search_issues.query a) = false ->
      truthy_string (search_issues.team_id a) = false ->
      truthy_string (search_issues.state_name a) = false ->
      truthy_string (search_issues.assignee_id a) = false ->
      search_issues.gqlQuery a
      = (search_issues.gqlQuery_head ++ search_issues.gqlQuery_issues
         ++ search_issues.gqlQuery_nodes)%string
      /\ search_issues.variables a
         = [("first", VNumber (search_issues.limit a))]).
Proof.
  intros Hlimit.
  pose proof (limit_schema_bounds _ _ Hlimit) as Hb.
  pose proof (limit_is_truthy _ (proj1 Hb)) as Hz.
  split; [exact Hb |]. split.
  { intros ->. simpl in Hlimit. now inversion Hlimit. }
  unfold search_issues.variables, assign_if_truthy. rewrite Hz. split.
  - destruct (search_issues.query a) as [[|c q]|]; reflexivity.
  - intros Hq Ht Hs Ha.
    unfold search_issues.gqlQuery, search_issues.filterString.
    rewrite Hq, (filters_truthy a Ht Hs Ha). simpl.
    split; [reflexivity |]. now destruct (search_issues.query a).
Qed.

Lemma search_without_arguments_witness :
  get (search_issues.variables
         (search_issues.mk None (Some "") None None 25)) "first"
  = Some (VNumber 25).
Proof.
  apply (proj1 (proj2 (proj2
           (search_without_arguments
              (search_issues.mk None (Some "") None None 25) (Some 25%Q)
              eq_refl)))).
Defined.

(** ** The identifier test of [get_issue] *)

Lemma after_letters_split (s : string) :
  exists l, s = (l ++ get_issue.after_letters s)%string
            /\ get_issue.all_letters l = true.
Proof.
  induction s as [|c s [l [Hs Hl]]]; simpl.
  - exists EmptyString. auto.
  - destruct (get_issue.is_letter c) eqn:Hc.
    + exists (String c l). simpl. rewrite Hc, Hl. split; [|reflexivity].
      now rewrite <- Hs.
    + exists EmptyString. auto.
Qed.

Lemma after_letters_dash (l d : string) :
  get_issue.all_letters l = true ->
  get_issue.after_letters (l ++ String "-" d) = String "-" d.
Proof.
  induction l as [|c l IH]; simpl.
  - reflexivity.
  - intros H. apply andb_true_iff in H. destruct H as [Hc Hl].
    rewrite Hc. now apply IH.
Qed.

(** X16.  The identifier test of [get_issue] accepts exactly the ids made
    of one or more ASCII letters of either case, one dash, and one or
    more decimal digits, with nothing before or after. *)
Theorem isIdentifier_language (issue_id : string) :
  get_issue.isIdentifier issue_id = true <->
  exists l d,
    issue_id = (l ++ "-" ++ d)%string
    /\ l <> "" /\ d <> ""
    /\ get_issue.all_letters l = true
    /\ get_issue.all_digits d = true.
Proof.
  split.
  - destruct issue_id as [|c r]; simpl; [discriminate |].
    intros H. apply andb_true_iff in H. destruct H as [Hc H].
    destruct (after_letters_split r) as [l [Hr Hl]].
    destruct (get_issue.after_letters r) as [|c' d]; [discriminate |].
    destruct (Ascii.eqb_spec c' "-") as [-> | Hne].
    + apply andb_true_iff in H. destruct H as [Hd Hds].
      exists (String c l), d. simpl. rewrite Hc, Hl.
      repeat split; try discriminate.
      * now rewrite Hr at 1.
      * intros ->. discriminate.
      * exact Hds.
    + exfalso. destruct c' as [[] [] [] [] [] [] [] []];
        try discriminate; now apply Hne.
  - intros [l [d [-> [Hl [Hd [Hls Hds]]]]]].
    destruct l as [|c l]; [contradiction |].
    simpl in *. apply andb_true_iff in Hls. destruct Hls as [Hc Hls].
    rewrite Hc, (after_letters_dash l d Hls). simpl.
    apply andb_true_iff. split; [|exact Hds].
    destruct d; [contradiction | reflexivity].
Qed.

(** X17.  Whatever the test decides, [get_issue] sends the same query up
    to the name of its variable, ["identifier"] or ["id"], and sends the
    id under that name, unchanged. *)
Theorem get_issue_request (issue_id : string) :
  let name := if get_issue.isIdentifier issue_id then "identifier"
              else "id" in
  get_issue.request issue_id
  = {| query := get_issue.query_with name;
       variables := Some [(name, VString issue_id)] |}.
Proof.
  unfold get_issue.request.
  destruct (get_issue.isIdentifier issue_id); reflexivity.
Qed.
